(** * RFI tracker: vendor scoring, voting, deployment-error log, DB connection

    A shallow embedding of the parts of the repository that carry its logic:

    - [src/components/VendorEvaluation.tsx.new]: the weighted score
      ([calculateWeightedScore]), the score inputs and
      [handleSubmitEvaluation];
    - [prisma/schema.prisma]: the [VendorVote] table and its unique key;
    - [src/pages/api/deployment/errors.ts]: the deployment-error handler;
    - [server.js]: [connectDB] and its retry counter.

    JavaScript numbers are IEEE 754 binary64 values.  The arithmetic of the
    score is written once, over an interface of number operations, and read
    twice: over the kernel's binary64 floats (what the program computes) and
    over the rationals (what the formula means without rounding). *)

From Stdlib Require Import ZArith QArith Qabs Lqa Lia List.
From Stdlib Require Import Floats.PrimFloat Floats.FloatOps Floats.SpecFloat.
From Stdlib Require Import Numbers.Cyclic.Int63.Uint63.
From Equations Require Import Equations.
From stdpp Require Import gmap strings list.

#[local] Open Scope Z_scope.

(* ===================================================================== *)
(** * Numbers *)
(* ===================================================================== *)

Module Num.

(** The operations the scoring code uses on numbers.  [lit q] is the
    number a decimal literal of the source text denotes ([0.07], [10],
    [100]); [q] is that literal as a fraction. *)
Class Arith (num : Type) := {
  lit : Q -> num;
  add : num -> num -> num;
  mul : num -> num -> num;
  div : num -> num -> num
}.
#[global] Arguments lit {num _} q%_Q.

(** Exact reading: rationals, no rounding. *)
#[export] Instance exact : Arith Q :=
  {| lit := fun q => q; add := Qplus; mul := Qmult; div := Qdiv |}.

(** An integer as a binary64 value (exact below 2^53). *)
Definition float_of_Z (z : Z) : float :=
  if (z <? 0)%Z
  then PrimFloat.opp (PrimFloat.of_uint63 (Uint63.of_Z (- z)))
  else PrimFloat.of_uint63 (Uint63.of_Z z).

(** Binary64 reading.  A decimal literal is its fraction rounded to the
    nearest double; since division is correctly rounded and numerator and
    denominator of every literal in the source are small integers, that is
    the quotient of the two. *)
#[export] Instance binary64 : Arith float :=
  {| lit := fun q => PrimFloat.div (float_of_Z (Qnum q)) (float_of_Z (Zpos (Qden q)));
     add := PrimFloat.add; mul := PrimFloat.mul; div := PrimFloat.div |}.

(** The exact value of a finite double, in lowest terms. *)
Definition Q_of_float (x : float) : option Q :=
  match Prim2SF x with
  | S754_zero _ => Some 0%Q
  | S754_finite s m e =>
      let v := if s then Zneg m else Zpos m in
      Some (Qred (if (e <? 0)%Z then Qmake v (2 ^ Z.to_pos (- e))%positive
                  else inject_Z (v * 2 ^ e)))
  | _ => None
  end.

(** JavaScript's [===] on numbers. *)
Definition strict_eq (x y : float) : bool := PrimFloat.eqb x y.

Definition isNaN (x : float) : bool := negb (PrimFloat.eqb x x).

End Num.

Declare Scope js_scope.
Delimit Scope js_scope with js.
Infix "+" := Num.add : js_scope.
Infix "*" := Num.mul : js_scope.
Infix "/" := Num.div : js_scope.

(* ===================================================================== *)
(** * The scoring rubric and [calculateWeightedScore] *)
(* ===================================================================== *)

Module Score.
Import Num.

(** The 18 score fields of [interface Evaluation]. *)
Inductive ScoreKey :=
| experienceScore | caseStudiesScore | domainExperienceScore
| approachAlignmentScore | understandingChallengesScore | solutionTailoringScore
| strategyAlignmentScore | methodologyScore | innovativeStrategiesScore
| stakeholderEngagementScore | toolsFrameworkScore
| costStructureScore | costEffectivenessScore | roiScore
| referencesScore | testimonialsScore | sustainabilityScore
| deliverablesScore.

#[export] Instance ScoreKey_eq_dec : EqDecision ScoreKey.
Proof. solve_decision. Defined.

Definition allKeys : list ScoreKey :=
  [ experienceScore; caseStudiesScore; domainExperienceScore;
    approachAlignmentScore; understandingChallengesScore; solutionTailoringScore;
    strategyAlignmentScore; methodologyScore; innovativeStrategiesScore;
    stakeholderEngagementScore; toolsFrameworkScore;
    costStructureScore; costEffectivenessScore; roiScore;
    referencesScore; testimonialsScore; sustainabilityScore;
    deliverablesScore ].

(** The object property each key names. *)
Definition keyName (k : ScoreKey) : string :=
  match k with
  | experienceScore => "experienceScore"
  | caseStudiesScore => "caseStudiesScore"
  | domainExperienceScore => "domainExperienceScore"
  | approachAlignmentScore => "approachAlignmentScore"
  | understandingChallengesScore => "understandingChallengesScore"
  | solutionTailoringScore => "solutionTailoringScore"
  | strategyAlignmentScore => "strategyAlignmentScore"
  | methodologyScore => "methodologyScore"
  | innovativeStrategiesScore => "innovativeStrategiesScore"
  | stakeholderEngagementScore => "stakeholderEngagementScore"
  | toolsFrameworkScore => "toolsFrameworkScore"
  | costStructureScore => "costStructureScore"
  | costEffectivenessScore => "costEffectivenessScore"
  | roiScore => "roiScore"
  | referencesScore => "referencesScore"
  | testimonialsScore => "testimonialsScore"
  | sustainabilityScore => "sustainabilityScore"
  | deliverablesScore => "deliverablesScore"
  end.

(** The six rubric headings of the comments in [calculateWeightedScore]. *)
Inductive Category :=
| Experience | Objectives | Methodology | Cost | References | Deliverables.

#[export] Instance Category_eq_dec : EqDecision Category.
Proof. solve_decision. Defined.

Definition allCategories : list Category :=
  [Experience; Objectives; Methodology; Cost; References; Deliverables].

Definition category (k : ScoreKey) : Category :=
  match k with
  | experienceScore | caseStudiesScore | domainExperienceScore => Experience
  | approachAlignmentScore | understandingChallengesScore
  | solutionTailoringScore => Objectives
  | strategyAlignmentScore | methodologyScore | innovativeStrategiesScore
  | stakeholderEngagementScore | toolsFrameworkScore => Methodology
  | costStructureScore | costEffectivenessScore | roiScore => Cost
  | referencesScore | testimonialsScore | sustainabilityScore => References
  | deliverablesScore => Deliverables
  end.

Definition keysOf (c : Category) : list ScoreKey :=
  filter (fun k => category k = c) allKeys.

(** The literal that multiplies each score in [calculateWeightedScore]
    (the percentage in the comment at the end of its line). *)
Definition weight (k : ScoreKey) : Q :=
  match k with
  | experienceScore => 0.10 | caseStudiesScore => 0.10
  | domainExperienceScore => 0.05
  | approachAlignmentScore => 0.07 | understandingChallengesScore => 0.07
  | solutionTailoringScore => 0.06
  | strategyAlignmentScore => 0.07 | methodologyScore => 0.06
  | innovativeStrategiesScore => 0.05 | stakeholderEngagementScore => 0.05
  | toolsFrameworkScore => 0.03
  | costStructureScore => 0.06 | costEffectivenessScore => 0.05
  | roiScore => 0.03
  | referencesScore => 0.06 | testimonialsScore => 0.02
  | sustainabilityScore => 0.02
  | deliverablesScore => 0.05
  end%Q.

(** The heading's percentage, as a fraction. *)
Definition categoryShare (c : Category) : Q :=
  match c with
  | Experience => 0.25 | Objectives => 0.20 | Methodology => 0.26
  | Cost => 0.14 | References => 0.10 | Deliverables => 0.05
  end%Q.

Definition Qsum (l : list Q) : Q := fold_right Qplus 0%Q l.

Section Aggregator.
Context {num : Type} `{Arith num}.
#[local] Open Scope js_scope.

(** What [calculateWeightedScore] reads: [scores.<key>] for each key. *)
Definition Scores := ScoreKey -> num.

Definition experienceWeight (scores : Scores) : num :=
  ( (scores experienceScore / lit 10 * lit 0.10) +
    (scores caseStudiesScore / lit 10 * lit 0.10) +
    (scores domainExperienceScore / lit 10 * lit 0.05)
  ) * lit 100.

Definition understandingWeight (scores : Scores) : num :=
  ( (scores approachAlignmentScore / lit 10 * lit 0.07) +
    (scores understandingChallengesScore / lit 10 * lit 0.07) +
    (scores solutionTailoringScore / lit 10 * lit 0.06)
  ) * lit 100.

Definition methodologyWeight (scores : Scores) : num :=
  ( (scores strategyAlignmentScore / lit 10 * lit 0.07) +
    (scores methodologyScore / lit 10 * lit 0.06) +
    (scores innovativeStrategiesScore / lit 10 * lit 0.05) +
    (scores stakeholderEngagementScore / lit 10 * lit 0.05) +
    (scores toolsFrameworkScore / lit 10 * lit 0.03)
  ) * lit 100.

Definition costWeight (scores : Scores) : num :=
  ( (scores costStructureScore / lit 10 * lit 0.06) +
    (scores costEffectivenessScore / lit 10 * lit 0.05) +
    (scores roiScore / lit 10 * lit 0.03)
  ) * lit 100.

Definition referencesWeight (scores : Scores) : num :=
  ( (scores referencesScore / lit 10 * lit 0.06) +
    (scores testimonialsScore / lit 10 * lit 0.02) +
    (scores sustainabilityScore / lit 10 * lit 0.02)
  ) * lit 100.

Definition deliverablesWeight (scores : Scores) : num :=
  (scores deliverablesScore / lit 10 * lit 0.05) * lit 100.

Definition calculateWeightedScore (scores : Scores) : num :=
  experienceWeight scores + understandingWeight scores
  + methodologyWeight scores + costWeight scores
  + referencesWeight scores + deliverablesWeight scores.

(** The sub-score the code computes under each heading. *)
Definition categoryScore (c : Category) (scores : Scores) : num :=
  match c with
  | Experience => experienceWeight scores
  | Objectives => understandingWeight scores
  | Methodology => methodologyWeight scores
  | Cost => costWeight scores
  | References => referencesWeight scores
  | Deliverables => deliverablesWeight scores
  end.

(** The per-criterion formula of the specification:
    contribution = (value / 10) x weight x 100, summed over the
    criteria in rubric order. *)
Definition contribution (scores : Scores) (k : ScoreKey) : num :=
  scores k / lit 10 * lit (weight k) * lit 100.

Definition sumContributions (order : list ScoreKey) (scores : Scores) : num :=
  fold_left (fun acc k => acc + contribution scores k) order (lit 0).

Definition referenceScore (scores : Scores) : num :=
  sumContributions allKeys scores.

(** Every score set to the same value; every score multiplied by [k]. *)
Definition uniform (v : num) : Scores := fun _ => v.
Definition scale (k : num) (scores : Scores) : Scores :=
  fun key => k * scores key.

End Aggregator.

(** A mapping that is zero except on the listed keys. *)
Definition sparse {num} `{Arith num} (l : list (ScoreKey * Q)) : Scores :=
  fun k => match List.find (fun p => bool_decide (fst p = k)) l with
           | Some p => lit (snd p)
           | None => lit 0
           end.

(** The coefficient of criterion [k] in the code: the score of the
    mapping that has 10 at [k] and 0 elsewhere, as a fraction of 100. *)
Definition leafWeight (k : ScoreKey) : Q :=
  (calculateWeightedScore (num := Q) (sparse [(k, 10%Q)]) / 100)%Q.

(** The mapping with 1 for experience, 2 for case studies and 0 elsewhere. *)
Definition oneAndTwo : ScoreKey -> float :=
  sparse [(experienceScore, 1%Q); (caseStudiesScore, 2%Q)].

(** The factor 0.1 as a double. *)
Definition tenth : float := lit 0.1.

End Score.

(* ===================================================================== *)
(** * The evaluation form ([VendorEvaluation]) *)
(* ===================================================================== *)

Module Form.
Import Num Score.

(** What the component stores in [newEvaluation]: numbers under the score
    keys, text under the remark keys.  The object itself is a map from
    property names ([[key: string]: any]). *)
Inductive value :=
| VNum (x : float)
| VStr (s : string).

Abbreviation Obj := (gmap string value).

Definition emptyEvaluation : Obj :=
  list_to_map
    [ ("experienceScore", VNum 0);
      ("caseStudiesScore", VNum 0);
      ("domainExperienceScore", VNum 0);
      ("approachAlignmentScore", VNum 0);
      ("understandingChallengesScore", VNum 0);
      ("solutionTailoringScore", VNum 0);
      ("strategyAlignmentScore", VNum 0);
      ("methodologyScore", VNum 0);
      ("innovativeStrategiesScore", VNum 0);
      ("stakeholderEngagementScore", VNum 0);
      ("toolsFrameworkScore", VNum 0);
      ("costStructureScore", VNum 0);
      ("costEffectivenessScore", VNum 0);
      ("roiScore", VNum 0);
      ("referencesScore", VNum 0);
      ("testimonialsScore", VNum 0);
      ("sustainabilityScore", VNum 0);
      ("deliverablesScore", VNum 0) ].

(** [scores.<key>] used as a number.  A missing property reads as
    [undefined], which the division turns into NaN.  Text is never stored
    under a score key (remark keys end in "Remark"); should some be there,
    the model reads it as NaN as well. *)
Definition scoreAt (scores : Obj) (k : ScoreKey) : float :=
  match scores !! keyName k with
  | Some (VNum x) => x
  | _ => PrimFloat.nan
  end.

Definition scoresOf (scores : Obj) : ScoreKey -> float := scoreAt scores.

(** [x || 0] on a number: NaN and both zeros are falsy. *)
Definition truthy (x : float) : bool :=
  negb (PrimFloat.eqb x 0 || isNaN x).

Definition orZero (x : float) : float := if truthy x then x else 0%float.

(** [onChange] of the input that [renderScoreInput (label, field, weight)]
    renders: [{...newEvaluation, [field]: parseFloat(e.target.value) || 0}].
    [parsed] is what [parseFloat] returned for the typed text (NaN when it
    is not a number); the attributes [min="0" max="10"] of the input do not
    take part in the handler. *)
Definition onChange (field : ScoreKey) (parsed : float) (newEvaluation : Obj) : Obj :=
  <[keyName field := VNum (orZero parsed)]> newEvaluation.

(** The debounced remark effect: [remarkKey] is the field name followed by
    "Remark", and nothing is stored for the empty text. *)
Definition remarkKey (field : ScoreKey) : string := keyName field +:+ "Remark".

Definition saveRemark (remarkField : ScoreKey) (currentRemark : string)
    (prev : Obj) : Obj :=
  if decide (currentRemark = "") then prev
  else <[remarkKey remarkField := VStr currentRemark]> prev.

(** What [handleSubmitEvaluation] does, in order. *)
Inductive Effect :=
| CallAggregator (scores : Obj) (result : float)
| Fetch (url : string) (body : Obj)
| ToastSubmitted (overallScore : float)
| ToastError.

(** The mock evaluator of the component. *)
Definition currentEvaluatorId : float := 1%float.

Definition requestBody (vendorId : float) (newEvaluation : Obj) (overallScore : float) : Obj :=
  <["evaluatorId" := VNum currentEvaluatorId]>
    (<["vendorId" := VNum vendorId]>
      (<["overallScore" := VNum overallScore]>
        (<["domain" := VStr "MEDIA"]> newEvaluation))).

(** [handleSubmitEvaluation]: the score is computed first, from the form
    state as it is, and sent with it; [responseOk] is [response.ok] (a
    failed [fetch] counts as not ok).  The form is emptied on success. *)
Definition handleSubmitEvaluation (vendorId : float) (responseOk : bool)
    (newEvaluation : Obj) : list Effect * Obj :=
  let overallScore := calculateWeightedScore (scoresOf newEvaluation) in
  let sent := [ CallAggregator newEvaluation overallScore;
                Fetch "/api/evaluations" (requestBody vendorId newEvaluation overallScore) ] in
  if responseOk
  then (sent ++ [ToastSubmitted overallScore], emptyEvaluation)
  else (sent ++ [ToastError], newEvaluation).

(** The user's actions on the dialog. *)
Inductive Event :=
| ScoreInput (field : ScoreKey) (parsed : float)
| RemarkInput (field : ScoreKey) (text : string)
| Submit (vendorId : float) (responseOk : bool).

Definition step (st : Obj) (e : Event) : Obj :=
  match e with
  | ScoreInput field parsed => onChange field parsed st
  | RemarkInput field text => saveRemark field text st
  | Submit vendorId ok => snd (handleSubmitEvaluation vendorId ok st)
  end.

Definition run (events : list Event) : Obj := fold_left step events emptyEvaluation.

(** The condition of the specification on a submission: every criterion
    key present, with a number in [0,10]. *)
Definition inRange (x : float) : bool :=
  PrimFloat.leb 0 x && PrimFloat.leb x 10.

Definition validSubmission (body : Obj) : bool :=
  forallb (fun k => match body !! keyName k with
                    | Some (VNum x) => inRange x
                    | _ => false
                    end) allKeys.

(** Every criterion key present with a number that is not NaN. *)
Definition numeric (body : Obj) : bool :=
  forallb (fun k => match body !! keyName k with
                    | Some (VNum x) => negb (isNaN x)
                    | _ => false
                    end) allKeys.

(** Every score key holds a number other than NaN. *)
Definition allNumeric (st : Obj) : Prop :=
  forall k, exists x, st !! keyName k = Some (VNum x) /\ isNaN x = false.

(** The form after the user typed 50 into the first score input. *)
Definition typedFifty : Obj := run [ScoreInput experienceScore 50%float].

(** The form after 5 is typed into every score input. *)
Definition fives : Obj :=
  run (List.map (fun k => ScoreInput k 5%float) allKeys).

End Form.

(* ===================================================================== *)
(** * The evaluation submission endpoint *)
(* ===================================================================== *)

Module Api.
Import Num Score Form.

(** A stored [Evaluation] row of [schema.prisma] (remarks and time stamps
    left out). *)
Record Evaluation := {
  vendorId : float;
  evaluatorId : float;
  domain : string;
  criterionScores : ScoreKey -> float;
  overallScore : float;
  status : string
}.

Inductive Response :=
| Created (row : Evaluation)
| Rejected (code : Z) (message : string).

Definition identifiers (body : Obj) : option (float * float * string) :=
  match body !! "vendorId", body !! "evaluatorId", body !! "domain" with
  | Some (VNum v), Some (VNum e), Some (VStr d) =>
      if bool_decide (d = "MEDIA" \/ d = "AI") then Some (v, e, d) else None
  | _, _, _ => None
  end.

(** Modelled from the spec: the handler of [POST /api/evaluations] is not
    among the sources.  Sections 4.3, 6 and 7 of the specification: a body
    that lacks an identifier or a criterion key, or holds a criterion value
    outside [0,10], is rejected (400) before the aggregator runs; otherwise
    [overallScore] is recomputed from the criterion scores, whatever
    [overallScore] the body carries, and one row is stored. *)
Definition submitEvaluation (body : Obj) (db : list Evaluation)
    : Response * list Evaluation :=
  match identifiers body with
  | None => (Rejected 400 "missing required identifiers", db)
  | Some (v, e, d) =>
      if validSubmission body then
        let row := {| vendorId := v; evaluatorId := e; domain := d;
                      criterionScores := scoresOf body;
                      overallScore := calculateWeightedScore (scoresOf body);
                      status := "COMPLETED" |} in
        (Created row, db ++ [row])
      else (Rejected 400 "missing criterion or score outside 0-10", db)
  end.

(** Two request bodies that agree on every criterion score. *)
Definition sameCriterionScores (b1 b2 : Obj) : Prop :=
  forall k : ScoreKey, b1 !! keyName k = b2 !! keyName k.

Definition storedOverallScore (r : Response) : option float :=
  match r with
  | Created row => Some (overallScore row)
  | Rejected _ _ => None
  end.

(** An honest request: the body the form posts for all-5 scores. *)
Definition honest : Obj := requestBody 7 fives (calculateWeightedScore (scoresOf fives)).

(** The same request with a forged score. *)
Definition forged : Obj := <["overallScore" := VNum 100]> honest.

End Api.

(* ===================================================================== *)
(** * Vendor votes ([model VendorVote]) and the final decision *)
(* ===================================================================== *)

Module Votes.

(** The two values of the [vote] column, and the decision they roll up to. *)
Inductive Vote := ACCEPT | REJECT.
Inductive Decision := ACCEPTED | REJECTED | PENDING.

#[export] Instance Vote_eq_dec : EqDecision Vote.
Proof. solve_decision. Defined.

(** A row of [VendorVote] ([createdAt] and the relations left out). *)
Record VendorVote := {
  id : Z;
  vendorId : Z;
  userId : Z;
  vote : Vote
}.

(** The columns of [@@unique([vendorId, userId])]. *)
Definition uniqueKey (r : VendorVote) : Z * Z := (vendorId r, userId r).

Definition hasKey (v u : Z) (r : VendorVote) : bool :=
  bool_decide (uniqueKey r = (v, u)).

(** The table, the [autoincrement()] counter of [id], and
    [Vendor.finalDecision] per vendor id (absent for [null]). *)
Record Db := {
  rows : list VendorVote;
  nextId : Z;
  finalDecision : gmap Z Decision
}.

Definition emptyDb : Db := {| rows := []; nextId := 1; finalDecision := ∅ |}.

Definition rowsFor (v u : Z) (db : Db) : list VendorVote :=
  List.filter (hasKey v u) (rows db).

Definition voteOf (v u : Z) (db : Db) : option Vote :=
  vote <$> List.find (hasKey v u) (rows db).

(** [create]: the unique index refuses a second row for the pair. *)
Definition create (v u : Z) (x : Vote) (db : Db) : option Db :=
  if existsb (hasKey v u) (rows db) then None
  else Some {| rows := rows db ++ [ {| id := nextId db; vendorId := v; userId := u; vote := x |} ];
               nextId := nextId db + 1;
               finalDecision := finalDecision db |}.

(** [update] of the row of a pair: only the [vote] column changes. *)
Definition setVote (v u : Z) (x : Vote) (r : VendorVote) : VendorVote :=
  if hasKey v u r
  then {| id := id r; vendorId := vendorId r; userId := userId r; vote := x |}
  else r.

Definition update (v u : Z) (x : Vote) (db : Db) : Db :=
  {| rows := map (setVote v u x) (rows db);
     nextId := nextId db;
     finalDecision := finalDecision db |}.

Definition delete (v u : Z) (db : Db) : Db :=
  {| rows := List.filter (fun r => negb (hasKey v u r)) (rows db);
     nextId := nextId db;
     finalDecision := finalDecision db |}.

(** [upsert] on the unique key: update the row when there is one, create it
    otherwise. *)
Definition upsert (v u : Z) (x : Vote) (db : Db) : Db :=
  if existsb (hasKey v u) (rows db) then update v u x db
  else match create v u x db with
       | Some db' => db'
       | None => db
       end.

(** The most recent vote of each voter, built by passing over the votes in
    order. *)
Definition latestVotes (votes : list VendorVote) : gmap Z Vote :=
  fold_left (fun m r => <[userId r := vote r]> m) votes ∅.

Definition countVotes (x : Vote) (m : gmap Z Vote) : nat :=
  size (filter (fun p : Z * Vote => p.2 = x) m).

(** Modelled from the spec: the decision resolver is not among the sources.
    Section 4.2 of the specification: count ACCEPT and REJECT among the most
    recent vote per distinct voter; more accepts give ACCEPTED, more rejects
    REJECTED, and a tie (with or without votes) PENDING. *)
Definition resolveDecision (votes : list VendorVote) : Decision :=
  let latest := latestVotes votes in
  let accepts := countVotes ACCEPT latest in
  let rejects := countVotes REJECT latest in
  if decide (rejects < accepts)%nat then ACCEPTED
  else if decide (accepts < rejects)%nat then REJECTED
  else PENDING.

(** Modelled from the spec: the voting endpoint is not among the sources.
    Section 6 of the specification: upsert keyed on (vendorId, userId), then
    resolve the decision for that vendor and store it; a tie leaves the stored
    decision as it was. *)
Definition castVote (v u : Z) (x : Vote) (db : Db) : Db :=
  let db' := upsert v u x db in
  let d := resolveDecision (List.filter (fun r => bool_decide (vendorId r = v)) (rows db')) in
  {| rows := rows db';
     nextId := nextId db';
     finalDecision := match d with
                      | PENDING => finalDecision db'
                      | _ => <[v := d]> (finalDecision db')
                      end |}.

(** Writes to the table. *)
Inductive Op :=
| Create (v u : Z) (x : Vote)
| CastVote (v u : Z) (x : Vote)
| Delete (v u : Z).

Definition apply (db : Db) (op : Op) : Db :=
  match op with
  | Create v u x => match create v u x db with Some db' => db' | None => db end
  | CastVote v u x => castVote v u x db
  | Delete v u => delete v u db
  end.

Definition runOps (ops : list Op) : Db := fold_left apply ops emptyDb.

(** The claim's own words, for comparison with [resolveDecision]: the last
    vote a user cast, the set of voters, and the number of voters whose last
    vote is [x]. *)
Definition lastVoteOf (votes : list VendorVote) (u : Z) : option Vote :=
  vote <$> last (List.filter (fun r => bool_decide (userId r = u)) votes).

Definition voters (votes : list VendorVote) : gset Z :=
  list_to_set (userId <$> votes).

Definition tally (x : Vote) (votes : list VendorVote) : nat :=
  size (filter (fun u => lastVoteOf votes u = Some x) (voters votes)).

Definition ballot (u : Z) (x : Vote) : VendorVote :=
  {| id := u; vendorId := 1; userId := u; vote := x |}.

Definition keys (db : Db) : list (Z * Z) := List.map uniqueKey (rows db).

(** The predicate of the claim: the user has a vote on the vendor. *)
Definition hasVoted (v u : Z) (db : Db) : Prop :=
  existsb (hasKey v u) (rows db) = true.

End Votes.

(* ===================================================================== *)
(** * The deployment-error handler ([pages/api/deployment/errors.ts]) *)
(* ===================================================================== *)

Module Deployment.

(** A value of the parsed request body ([req.body] is [any]); an object or
    an array is kept as its JSON text. *)
Inductive value :=
| VUndefined
| VNull
| VBool (b : bool)
| VNum (x : float)
| VStr (s : string)
| VObject (text : string).

(** JavaScript truthiness, as [!errorMessage] and [metadata || {}] use it. *)
Definition truthy (v : value) : bool :=
  match v with
  | VUndefined | VNull => false
  | VBool b => b
  | VNum x => Form.truthy x
  | VStr s => negb (String.eqb s "")
  | VObject _ => true
  end.

(** The six properties the POST branch destructures from [req.body]; a
    property the body does not have reads as [VUndefined]. *)
Record Body := {
  errorMessage : value;
  errorStack : value;
  errorCode : value;
  environment : value;
  component : value;
  metadata : value
}.

(** [body] is [None] when [req.body] is [null] or [undefined] (the body
    parser hands the JSON text [null] through as [null]): destructuring it
    throws.  [resolved] is [req.query.resolved]. *)
Record Request := {
  method : string;
  resolved : option string;
  body : option Body
}.

(** A row of [model DeploymentError] (time stamps left out). *)
Record DeploymentError := {
  id : Z;
  rowMessage : string;
  rowStack : option string;
  rowCode : option string;
  rowEnvironment : string;
  rowComponent : option string;
  rowMetadata : value;
  rowResolved : bool
}.

Record Table := {
  rows : list DeploymentError;
  nextId : Z
}.

Inductive Payload :=
| Error (message : string)
| Listing (total : nat)
| Logged (row : DeploymentError).

Record Response := {
  status : Z;
  json : Payload
}.

(** A [String?] column takes a string, [null] or nothing. *)
Definition optionalString (v : value) : option (option string) :=
  match v with
  | VUndefined | VNull => Some None
  | VStr s => Some (Some s)
  | _ => None
  end.

(** [prisma.deploymentError.create]: throws ([None]) when the database does
    not answer or a value does not fit its column. *)
Definition create (dbUp : bool) (data : Body) (t : Table)
    : option (DeploymentError * Table) :=
  if dbUp then
    match errorMessage data, environment data,
          optionalString (errorStack data), optionalString (errorCode data),
          optionalString (component data) with
    | VStr m, VStr e, Some st, Some c, Some comp =>
        let row := {| id := nextId t; rowMessage := m; rowStack := st;
                      rowCode := c; rowEnvironment := e; rowComponent := comp;
                      rowMetadata := metadata data; rowResolved := false |} in
        Some (row, {| rows := rows t ++ [row]; nextId := nextId t + 1 |})
    | _, _, _, _, _ => None
    end
  else None.

(** [prisma.deploymentError.count ({ where })] with the [resolved] filter of
    the GET branch. *)
Definition count (resolved : option string) (t : Table) : nat :=
  match resolved with
  | None => length (rows t)
  | Some r => length (List.filter (fun row => Bool.eqb (rowResolved row) (String.eqb r "true")) (rows t))
  end.

Definition respond (code : Z) (p : Payload) : Response := {| status := code; json := p |}.

(** The body of the [try] block, reached with GET or POST only: [None]
    when something in it throws.  The page of rows the GET branch returns is
    not modelled, only its total. *)
Definition attempt (dbUp : bool) (req : Request) (t : Table)
    : option (Response * Table) :=
  if String.eqb (method req) "GET" then
    if dbUp then Some (respond 200 (Listing (count (resolved req) t)), t)
    else None
  else
    match body req with
    | None => None
    | Some b =>
        if negb (truthy (errorMessage b)) || negb (truthy (environment b)) then
          Some (respond 400
                  (Error "Missing required fields: errorMessage and environment are required"),
                t)
        else
          let data := {| errorMessage := errorMessage b; errorStack := errorStack b;
                         errorCode := errorCode b; environment := environment b;
                         component := component b;
                         metadata := if truthy (metadata b) then metadata b
                                     else VObject "{}" |} in
          match create dbUp data t with
          | Some (row, t') => Some (respond 201 (Logged row), t')
          | None => None
          end
    end.

Definition handler (dbUp : bool) (req : Request) (t : Table) : Response * Table :=
  if negb (String.eqb (method req) "POST") && negb (String.eqb (method req) "GET")
  then (respond 405 (Error "Method not allowed"), t)
  else match attempt dbUp req t with
       | Some r => r
       | None => (respond 500 (Error "Internal server error"), t)
       end.



Definition emptyTable : Table := {| rows := []; nextId := 1 |}.




End Deployment.

(* ===================================================================== *)
(** * The database connection ([server.js]) *)
(* ===================================================================== *)

Module Database.

(** The module-level variables [prisma] (is there a client?), [isConnected]
    and [connectionRetries]. *)
Record State := {
  prisma : bool;
  isConnected : bool;
  connectionRetries : Z
}.

Definition initial : State :=
  {| prisma := false; isConnected := false; connectionRetries := 0 |}.

(** What a call returns, the variables it leaves, and the counters it
    printed in "Retrying connection (k/MAX_RETRIES)", one per recursive
    call. *)
Record Result := {
  returned : bool;
  final : State;
  retryLog : list Z
}.

(** [connectionRetries < MAX_RETRIES]; [MAX_RETRIES] is [None] when
    [parseInt] gave NaN, and then the comparison is false. *)
Definition below (retries : Z) (MAX_RETRIES : option Z) : Prop :=
  match MAX_RETRIES with
  | Some m => retries < m
  | None => False
  end.

Definition below_dec (retries : Z) (MAX_RETRIES : option Z)
    : {below retries MAX_RETRIES} + {~ below retries MAX_RETRIES}.
Proof.
  destruct MAX_RETRIES as [m|]; simpl; [apply Z_lt_dec | right; tauto].
Defined.

(** The retries left before the counter reaches the bound. *)
Definition budget (MAX_RETRIES : option Z) (st : State) : nat :=
  match MAX_RETRIES with
  | Some m => Z.to_nat (m - connectionRetries st)
  | None => 0
  end.

Definition connected : State :=
  {| prisma := true; isConnected := true; connectionRetries := 0 |}.

Definition failed (retries : Z) : State :=
  {| prisma := false; isConnected := false; connectionRetries := retries |}.

(** [connectDB].  [succeeds n] tells whether the [try] block of the [n]-th
    attempt runs to its end (the client is created and [$connect] answers);
    the delay before a retry takes no part.  The recursion is the one of the
    source, justified by the retries left. *)
Equations? connectDB (MAX_RETRIES : option Z) (succeeds : nat -> bool)
    (n : nat) (st : State) : Result by wf (budget MAX_RETRIES st) lt :=
connectDB MAX_RETRIES succeeds n st with isConnected st := {
  | true := {| returned := true; final := st; retryLog := [] |};
  | false with succeeds n := {
    | true := {| returned := true; final := connected; retryLog := [] |};
    | false with below_dec (connectionRetries st) MAX_RETRIES := {
      | left _ :=
          let r := connectDB MAX_RETRIES succeeds (S n)
                     (failed (connectionRetries st + 1)) in
          {| returned := returned r; final := final r;
             retryLog := (connectionRetries st + 1) :: retryLog r |};
      | right _ :=
          {| returned := false; final := failed (connectionRetries st);
             retryLog := [] |} } } }.
Proof.
  destruct MAX_RETRIES as [m|]; simpl in *; [lia | tauto].
Qed.

(** The counters [c+1, c+2, ..., c+n]. *)
Definition countersFrom (c : Z) (n : nat) : list Z :=
  List.map (fun i => c + Z.of_nat i) (seq 1 n).

Definition withinBound (MAX_RETRIES : option Z) (k : Z) : Prop :=
  match MAX_RETRIES with
  | Some m => k <= m
  | None => False
  end.

(** The database never answers: five retries, then false. *)
Definition neverUp : nat -> bool := fun _ => false.

(** The default bound, [MAX_RETRIES = 5]. *)
Definition defaultMax : option Z := Some 5.

End Database.

(* ===================================================================== *)
(** * What the form shows beside each input ([renderScoreInput]) *)
(* ===================================================================== *)

Module Display.
Import Num Score.

(** The [weight] argument of each [renderScoreInput] call of the
    accordion. *)
Definition weightLabel (k : ScoreKey) : string :=
  match k with
  | experienceScore => "10%" | caseStudiesScore => "10%"
  | domainExperienceScore => "5%"
  | approachAlignmentScore => "7%" | understandingChallengesScore => "7%"
  | solutionTailoringScore => "6%"
  | strategyAlignmentScore => "7%" | methodologyScore => "6%"
  | innovativeStrategiesScore => "5%" | stakeholderEngagementScore => "5%"
  | toolsFrameworkScore => "3%"
  | costStructureScore => "6%" | costEffectivenessScore => "5%"
  | roiScore => "3%"
  | referencesScore => "6%" | testimonialsScore => "2%"
  | sustainabilityScore => "2%"
  | deliverablesScore => "5%"
  end.

(** The character '%'. *)
Definition percentSign : Ascii.ascii := Ascii.ascii_of_nat 37.

(** [s.replace(c, '')] with a string pattern: the first occurrence goes. *)
Fixpoint removeFirst (c : Ascii.ascii) (s : string) : string :=
  match s with
  | EmptyString => EmptyString
  | String a rest => if Ascii.eqb a c then rest else String a (removeFirst c rest)
  end.

Definition digit (a : Ascii.ascii) : option Z :=
  let n := Z.of_N (Ascii.N_of_ascii a) in
  if (48 <=? n) && (n <=? 57) then Some (n - 48) else None.

Fixpoint digitsPrefix (s : string) (acc : option Z) : option Z :=
  match s with
  | EmptyString => acc
  | String a rest =>
      match digit a with
      | Some d => digitsPrefix rest (Some (10 * default 0 acc + d))
      | None => acc
      end
  end.

(** [parseFloat] on text that starts with decimal digits, as the labels do:
    the number the leading digits spell, and [None] (NaN) when the text
    starts with none.  Signs, fractions, exponents and leading white space
    are not covered. *)
Definition parseFloat (s : string) : option Z := digitsPrefix s None.

Section Shown.
Context {num : Type} `{Arith num}.
#[local] Open Scope js_scope.

(** [parseFloat(weight.replace('%', '')) / 100]; [None] stands for NaN. *)
Definition weightValue (weight : string) : option num :=
  match parseFloat (removeFirst percentSign weight) with
  | Some n => Some (lit (inject_Z n) / lit 100)
  | None => None
  end.

(** The number behind "Weighted Score:", before [toFixed(2)]:
    [(score * weightValue) * 100]. *)
Definition weightedScore (score : num) (weight : string) : option num :=
  match weightValue weight with
  | Some w => Some ((score * w) * lit 100)
  | None => None
  end.

End Shown.

(** The mapping [scores] with [d] added to the value of [k]. *)
Definition raise {num : Type} `{Arith num} (k : ScoreKey) (d : num)
    (scores : ScoreKey -> num) : ScoreKey -> num :=
  fun j => if decide (j = k) then add (scores j) d else scores j.

(** The numbers shown beside the 18 inputs when every value is [v]. *)
Definition shownAt (v : Q) : list (option Q) :=
  List.map (fun k => weightedScore v (weightLabel k)) allKeys.

Definition sumShown (l : list (option Q)) : Q :=
  Qsum (List.map (default 0%Q) l).

End Display.

(* ===================================================================== *)
(** * The remark dialog of the form *)
(* ===================================================================== *)

Module Remarks.
Import Num Score Form.

(** The remark properties [interface Evaluation] declares, one per score
    (they are also the remark columns of [model Evaluation]). *)
Definition declaredRemark (k : ScoreKey) : string :=
  match k with
  | experienceScore => "experienceRemark"
  | caseStudiesScore => "caseStudiesRemark"
  | domainExperienceScore => "domainExperienceRemark"
  | approachAlignmentScore => "approachAlignmentRemark"
  | understandingChallengesScore => "understandingChallengesRemark"
  | solutionTailoringScore => "solutionTailoringRemark"
  | strategyAlignmentScore => "strategyAlignmentRemark"
  | methodologyScore => "methodologyRemark"
  | innovativeStrategiesScore => "innovativeStrategiesRemark"
  | stakeholderEngagementScore => "stakeholderEngagementRemark"
  | toolsFrameworkScore => "toolsFrameworkRemark"
  | costStructureScore => "costStructureRemark"
  | costEffectivenessScore => "costEffectivenessRemark"
  | roiScore => "roiRemark"
  | referencesScore => "referencesRemark"
  | testimonialsScore => "testimonialsRemark"
  | sustainabilityScore => "sustainabilityRemark"
  | deliverablesScore => "deliverablesRemark"
  end.

(** The four pieces of state of the component, and the pending
    [setTimeout] of the remark effect with the key and the text its closure
    holds. *)
Record Dialog := {
  newEvaluation : Obj;
  remarkField : option ScoreKey;
  remarkDialogOpen : bool;
  currentRemark : string;
  timer : option (ScoreKey * string)
}.

Definition opened : Dialog :=
  {| newEvaluation := emptyEvaluation; remarkField := None;
     remarkDialogOpen := false; currentRemark := ""; timer := None |}.

(** [useEffect (..., [currentRemark, remarkField])]: when one of the two
    changed, the clean-up of the previous run clears its timer, and a new
    timer is set if there is a field and the text is not empty.  When
    neither changed the effect does not run and a pending timer stays. *)
Definition afterRender (old new : Dialog) : Dialog :=
  if decide (currentRemark old = currentRemark new /\ remarkField old = remarkField new)
  then new
  else {| newEvaluation := newEvaluation new;
          remarkField := remarkField new;
          remarkDialogOpen := remarkDialogOpen new;
          currentRemark := currentRemark new;
          timer := match remarkField new with
                   | Some f => if decide (currentRemark new = "") then None
                               else Some (f, currentRemark new)
                   | None => None
                   end |}.

(** [newEvaluation[remarkKey] || ''] as the remark button reads it. *)
Definition currentRemarkValue (d : Dialog) (field : ScoreKey) : string :=
  match newEvaluation d !! remarkKey field with
  | Some (VStr s) => s
  | _ => ""
  end.

Inductive Event :=
| ScoreInput (field : ScoreKey) (parsed : float)
| OpenRemark (field : ScoreKey)
| TypeRemark (text : string)
| TimerFires
| SaveRemark
| CancelRemark
| Submit (vendorId : float) (responseOk : bool).

Definition withEvaluation (d : Dialog) (o : Obj) : Dialog :=
  {| newEvaluation := o; remarkField := remarkField d;
     remarkDialogOpen := remarkDialogOpen d; currentRemark := currentRemark d;
     timer := timer d |}.

(** The state setters each handler calls; the effect is applied by [step]. *)
Definition handle (d : Dialog) (e : Event) : Dialog :=
  match e with
  | ScoreInput field parsed => withEvaluation d (onChange field parsed (newEvaluation d))
  | OpenRemark field =>
      {| newEvaluation := newEvaluation d; remarkField := Some field;
         remarkDialogOpen := true; currentRemark := currentRemarkValue d field;
         timer := timer d |}
  | TypeRemark text =>
      {| newEvaluation := newEvaluation d; remarkField := remarkField d;
         remarkDialogOpen := remarkDialogOpen d; currentRemark := text;
         timer := timer d |}
  | TimerFires =>
      match timer d with
      | Some (f, text) =>
          {| newEvaluation := <[remarkKey f := VStr text]> (newEvaluation d);
             remarkField := remarkField d; remarkDialogOpen := remarkDialogOpen d;
             currentRemark := currentRemark d; timer := None |}
      | None => d
      end
  | SaveRemark =>
      match remarkField d with
      | Some _ =>
          {| newEvaluation := newEvaluation d; remarkField := None;
             remarkDialogOpen := false; currentRemark := ""; timer := timer d |}
      | None => d
      end
  | CancelRemark =>
      {| newEvaluation := newEvaluation d; remarkField := remarkField d;
         remarkDialogOpen := false; currentRemark := currentRemark d;
         timer := timer d |}
  | Submit vendorId ok =>
      withEvaluation d (snd (handleSubmitEvaluation vendorId ok (newEvaluation d)))
  end.

Definition step (d : Dialog) (e : Event) : Dialog := afterRender d (handle d e).

Definition runFrom (d : Dialog) (events : list Event) : Dialog :=
  fold_left step events d.

Definition run (events : list Event) : Dialog := runFrom opened events.

Definition resets (e : Event) : bool :=
  match e with
  | Submit _ true => true
  | _ => false
  end.

(** The value last typed into a score input since the form was last
    emptied, if any. *)
Definition lastTyped (k : ScoreKey) (events : list Event) : option float :=
  fold_left (fun acc e =>
               match e with
               | ScoreInput field parsed => if decide (field = k) then Some parsed else acc
               | Submit _ true => None
               | _ => acc
               end) events None.

(** No pending timer holds an empty text, and every remark in the form
    object is a text that is not empty. *)
Definition remarksSound (d : Dialog) : Prop :=
  (forall f t, timer d = Some (f, t) -> t <> "")
  /\ (forall f v, newEvaluation d !! remarkKey f = Some v ->
        exists t, v = VStr t /\ t <> "").

(** The value the form holds after [typed] was the last thing typed. *)
Definition shownValue (typed : option float) : float :=
  match typed with
  | Some parsed => orZero parsed
  | None => 0%float
  end.

End Remarks.

(* ===================================================================== *)
(** * The deployment-error log over a run of requests *)
(* ===================================================================== *)

Module DeploymentLog.
Import Deployment.

(** One request and whether the database answers while it is served. *)
Record Call := {
  dbUp : bool;
  request : Request
}.

Definition serveOne (acc : list Response * Table) (c : Call) : list Response * Table :=
  let r := handler (dbUp c) (request c) (snd acc) in
  (fst acc ++ [fst r], snd r).

Definition serve (calls : list Call) : list Response * Table :=
  fold_left serveOne calls ([], emptyTable).

(** The answers with status 201 among a list of answers. *)
Definition created (answers : list Response) : nat :=
  length (List.filter (fun r => (status r =? 201)%Z) answers).

(** A text column value the POST branch accepts as required field. *)
Definition requiredText (v : value) : option string :=
  match v with
  | VStr s => if String.eqb s "" then None else Some s
  | _ => None
  end.

(** The bodies [create] stores: the two required texts, and optional texts
    that are strings, [null] or absent. *)
Definition storable (b : Body) : bool :=
  match requiredText (errorMessage b), requiredText (environment b),
        optionalString (errorStack b), optionalString (errorCode b),
        optionalString (component b) with
  | Some _, Some _, Some _, Some _, Some _ => true
  | _, _, _, _, _ => false
  end.

Definition falsyField (b : Body) : bool :=
  negb (truthy (errorMessage b)) || negb (truthy (environment b)).

(** The row an accepted body is stored as. *)
Definition rowOf (b : Body) (t : Table) : option DeploymentError :=
  match create true
          {| errorMessage := errorMessage b; errorStack := errorStack b;
             errorCode := errorCode b; environment := environment b;
             component := component b;
             metadata := if truthy (metadata b) then metadata b else VObject "{}" |} t with
  | Some (row, _) => Some row
  | None => None
  end.

(** The seven ways a request is answered. *)
Inductive Answered (up : bool) (req : Request) (t : Table) : Response * Table -> Prop :=
| MethodRefused :
    method req <> "GET" -> method req <> "POST" ->
    Answered up req t (respond 405 (Error "Method not allowed"), t)
| Listed :
    method req = "GET" -> up = true ->
    Answered up req t (respond 200 (Listing (count (resolved req) t)), t)
| ListFailed :
    method req = "GET" -> up = false ->
    Answered up req t (respond 500 (Error "Internal server error"), t)
| NoBody :
    method req = "POST" -> body req = None ->
    Answered up req t (respond 500 (Error "Internal server error"), t)
| FieldMissing b :
    method req = "POST" -> body req = Some b -> falsyField b = true ->
    Answered up req t
      (respond 400 (Error "Missing required fields: errorMessage and environment are required"),
       t)
| NotStored b :
    method req = "POST" -> body req = Some b -> falsyField b = false ->
    up && storable b = false ->
    Answered up req t (respond 500 (Error "Internal server error"), t)
| Stored b row :
    method req = "POST" -> body req = Some b -> up = true -> storable b = true ->
    rowOf b t = Some row ->
    Answered up req t
      (respond 201 (Logged row), {| rows := rows t ++ [row]; nextId := nextId t + 1 |}).

(** What holds of the answers given so far and of the table. *)
Definition logSound (state : list Response * Table) : Prop :=
  length (rows (snd state)) = created (fst state)
  /\ List.map id (rows (snd state)) = List.map Z.of_nat (seq 1 (created (fst state)))
  /\ nextId (snd state) = Z.of_nat (created (fst state)) + 1
  /\ Forall (fun row => rowResolved row = false) (rows (snd state)).

End DeploymentLog.

(* ===================================================================== *)
(** * The server around [connectDB] ([server.js]) *)
(* ===================================================================== *)

Module Server.
Import Database.


(** [health.database]. *)
Inductive DatabaseField := Connected | Disconnected | Errored.

Definition statusCode (f : DatabaseField) : Z :=
  match f with
  | Connected => 200
  | _ => 503
  end.

(** [GET /api/health].  [queryOk] tells whether [SELECT 1] answers.  When it
    does not, [connectDB ()] is started without being awaited; the answer
    does not wait for it. *)
Definition healthCheck (MAX_RETRIES : option Z) (queryOk : bool)
    (succeeds : nat -> bool) (st : State) : (Z * DatabaseField) * State :=
  if isConnected st then
    if queryOk then ((statusCode Connected, Connected), st)
    else ((statusCode Errored, Errored), final (connectDB MAX_RETRIES succeeds 0 st))
  else
    let r := connectDB MAX_RETRIES succeeds 0 st in
    let f := if returned r then Connected else Disconnected in
    ((statusCode f, f), final r).

(** The middleware in front of [/api]: the request goes on ([next ()]) or is
    answered 503 "Database not connected". *)
Inductive Gate := Forwarded | Unavailable.

Definition apiMiddleware (MAX_RETRIES : option Z) (succeeds : nat -> bool)
    (st : State) : Gate * State :=
  if isConnected st then (Forwarded, st)
  else
    let r := connectDB MAX_RETRIES succeeds 0 st in
    (if returned r then Forwarded else Unavailable, final r).

(** What happens to the server: it starts ([startServer] calls
    [connectDB]), it is asked for its health, it receives an API request.
    Each comes with the outcomes of the connection attempts it may make. *)
Inductive Event :=
| Start (succeeds : nat -> bool)
| Health (queryOk : bool) (succeeds : nat -> bool)
| Api (succeeds : nat -> bool).

Definition step (MAX_RETRIES : option Z) (st : State) (e : Event) : State :=
  match e with
  | Start succeeds => final (connectDB MAX_RETRIES succeeds 0 st)
  | Health queryOk succeeds => snd (healthCheck MAX_RETRIES queryOk succeeds st)
  | Api succeeds => snd (apiMiddleware MAX_RETRIES succeeds st)
  end.

Definition runFrom (MAX_RETRIES : option Z) (st : State) (events : list Event) : State :=
  fold_left (step MAX_RETRIES) events st.

(** The retries an event makes. *)
Definition retriesOf (MAX_RETRIES : option Z) (st : State) (e : Event) : nat :=
  match e with
  | Start succeeds | Api succeeds | Health _ succeeds =>
      length (retryLog (connectDB MAX_RETRIES succeeds 0 st))
  end.

Definition neverSucceeds (e : Event) : Prop :=
  match e with
  | Start succeeds | Api succeeds | Health _ succeeds => forall n, succeeds n = false
  end.

Fixpoint totalRetries (MAX_RETRIES : option Z) (st : State) (events : list Event) : nat :=
  match events with
  | [] => 0
  | e :: rest =>
      retriesOf MAX_RETRIES st e + totalRetries MAX_RETRIES (step MAX_RETRIES st e) rest
  end.


End Server.

(* ===================================================================== *)
(** * Properties of the score *)
(* ===================================================================== *)

Import Num Score.

Ltac unfold_score :=
  unfold calculateWeightedScore, referenceScore, sumContributions, contribution,
    categoryScore,
    experienceWeight, understandingWeight, methodologyWeight, costWeight,
    referencesWeight, deliverablesWeight, scale, uniform;
  cbn [allKeys fold_left weight lit add mul div exact List.map Qsum fold_right].

Section ExactScore.
#[local] Open Scope Q_scope.

(** In rubric order the reference formula is the plain sum of the 18
    contributions. *)
Lemma referenceScore_sum (s : ScoreKey -> Q) :
  referenceScore s == Qsum (List.map (fun k => s k / 10 * weight k * 100) allKeys).
Proof. unfold_score. field. Qed.

(** C1 (as amended): in exact rational arithmetic, for every mapping of the
    18 criteria to values, [calculateWeightedScore] equals the sum over the
    criteria of (value / 10) x weight x 100 with the weights of the table
    [weight]: the category-grouped computation of the code and the
    per-criterion formula agree. *)
Theorem score_is_reference_exact (s : ScoreKey -> Q) :
  calculateWeightedScore s == referenceScore s
  /\ calculateWeightedScore s
     == Qsum (List.map (fun k => s k / 10 * weight k * 100) allKeys)
  /\ List.map weight allKeys
     = [ 0.10; 0.10; 0.05;  0.07; 0.07; 0.06;  0.07; 0.06; 0.05; 0.05; 0.03;
         0.06; 0.05; 0.03;  0.06; 0.02; 0.02;  0.05 ].
Proof.
  split; [| split]; [unfold_score; field | unfold_score; field | reflexivity].
Qed.

(** C4: the 18 weights the aggregator multiplies by sum to exactly 1, the
    weights under the six headings sum to 25%, 20%, 26%, 14%, 10% and 5%,
    and the table [weight] is the coefficient each criterion has in
    [calculateWeightedScore] (exact rational arithmetic). *)
Theorem weights_sum_to_one :
  length allKeys = 18%nat
  /\ Qsum (List.map weight allKeys) == 1
  /\ (forall c, Qsum (List.map weight (keysOf c)) == categoryShare c)
  /\ List.map categoryShare allCategories = [0.25; 0.20; 0.26; 0.14; 0.10; 0.05]
  /\ (forall c, categoryScore c (uniform (num := Q) 10) == 100 * categoryShare c)
  /\ (forall k, leafWeight k == weight k).
Proof.
  split; [reflexivity|].
  split; [vm_compute; reflexivity|].
  split; [intros []; vm_compute; reflexivity|].
  split; [reflexivity|].
  split; [intros []; vm_compute; reflexivity|].
  intros []; vm_compute; reflexivity.
Qed.

(** C6 (as amended): in exact rational arithmetic the aggregator is
    homogeneous: multiplying every value by a factor [k] in [0,1] multiplies
    the score by [k]. *)
Theorem score_homogeneous_exact (s : ScoreKey -> Q) (k : Q) :
  0 <= k <= 1 ->
  calculateWeightedScore (scale k s) == k * calculateWeightedScore s.
Proof.
  intros _. unfold_score. field.
Qed.

Lemma score_homogeneous_exact_witness :
  0 <= 0.5 <= 1
  /\ calculateWeightedScore (scale 0.5 (uniform 10))
     == 0.5 * calculateWeightedScore (uniform (num := Q) 10).
Proof.
  assert (H : 0 <= 0.5 <= 1) by (split; unfold Qle; simpl; lia).
  split; [exact H | exact (score_homogeneous_exact (uniform 10) 0.5 H)].
Defined.

End ExactScore.

Section Binary64Score.

(** The literals of the source as doubles: what [lit] gives is the double
    JavaScript reads the literal as. *)
Lemma literals_binary64 :
  lit 0.10 = 0x1.999999999999ap-4%float
  /\ lit 0.07 = 0x1.1eb851eb851ecp-4%float
  /\ lit 0.06 = 0x1.eb851eb851eb8p-5%float
  /\ lit 0.05 = 0x1.999999999999ap-5%float
  /\ lit 0.03 = 0x1.eb851eb851eb8p-6%float
  /\ lit 0.02 = 0x1.47ae147ae147bp-6%float
  /\ lit 10 = 10%float
  /\ lit 100 = 100%float.
Proof. repeat split; vm_compute; reflexivity. Qed.

(** C1 (counterexample): in double precision the grouped computation and
    the per-criterion formula differ in the last bits.  With experience 1,
    case studies 2 and every other value 0 the code returns
    3.0000000000000004 and the sum of the contributions is
    3.0000000000000009; only two contributions are not zero, so the order
    of the sum plays no part. *)
Lemma score_not_reference_binary64 :
  calculateWeightedScore oneAndTwo = 0x1.8000000000001p+1%float
  /\ referenceScore oneAndTwo = 0x1.8000000000002p+1%float
  /\ sumContributions (rev allKeys) oneAndTwo = 0x1.8000000000002p+1%float
  /\ strict_eq (calculateWeightedScore oneAndTwo) (referenceScore oneAndTwo) = false.
Proof. repeat split; vm_compute; reflexivity. Qed.

(** C5: with every value 10 the code returns the double 100 (so within
    1e-9 of 100), with every value 0 it returns 0; the same holds in exact
    arithmetic. *)
Theorem perfect_and_zero_scores :
  calculateWeightedScore (uniform (num := float) (lit 10)) = 100%float
  /\ (exists q, Q_of_float (calculateWeightedScore (uniform (num := float) (lit 10))) = Some q
                /\ (Qabs (q - 100) <= 1 # 1000000000)%Q)
  /\ calculateWeightedScore (uniform (num := float) (lit 0)) = 0%float
  /\ (calculateWeightedScore (uniform (num := Q) 10) == 100)%Q
  /\ (calculateWeightedScore (uniform (num := Q) 0) == 0)%Q.
Proof.
  split; [vm_compute; reflexivity|].
  split.
  { exists 100%Q. split; [vm_compute; reflexivity|].
    vm_compute. discriminate. }
  split; [vm_compute; reflexivity|].
  split; vm_compute; reflexivity.
Qed.

(** C6 (counterexample): in double precision, scaling every value of the
    all-10 mapping by 0.1 gives 10.000000000000002, while 0.1 times the
    score 100 is 10. *)
Lemma score_not_homogeneous_binary64 :
  (PrimFloat.leb 0 tenth && PrimFloat.leb tenth 1 = true)
  /\ calculateWeightedScore (scale tenth (uniform (lit 10))) = 0x1.4000000000001p+3%float
  /\ (tenth * calculateWeightedScore (uniform (lit 10)))%js = 10%float
  /\ strict_eq (calculateWeightedScore (scale tenth (uniform (lit 10))))
               (tenth * calculateWeightedScore (uniform (lit 10)))%js = false.
Proof. repeat split; vm_compute; reflexivity. Qed.

End Binary64Score.

(* ===================================================================== *)
(** * Properties of the evaluation form *)
(* ===================================================================== *)

Section FormProperties.
Import Form.

(** The aggregator only looks at the 18 values it is given. *)
Lemma calculateWeightedScore_ext {num} `{Arith num} (s s' : ScoreKey -> num) :
  (forall k, s k = s' k) ->
  calculateWeightedScore s = calculateWeightedScore s'.
Proof.
  intros E.
  unfold calculateWeightedScore, experienceWeight, understandingWeight,
    methodologyWeight, costWeight, referencesWeight, deliverablesWeight.
  now rewrite !E.
Qed.

(** A remark is stored under "<field>Remark", never under a score key. *)
Lemma remarkKey_not_score (f k : ScoreKey) : remarkKey f <> keyName k.
Proof. destruct f, k; vm_compute; discriminate. Qed.

Lemma orZero_not_NaN (x : float) : isNaN (orZero x) = false.
Proof.
  unfold orZero, truthy.
  destruct (PrimFloat.eqb x 0); simpl; [reflexivity|].
  destruct (isNaN x) eqn:E; simpl; [reflexivity | exact E].
Qed.

Lemma allNumeric_empty : allNumeric emptyEvaluation.
Proof. intros k. exists 0%float. destruct k; split; reflexivity. Qed.

Lemma allNumeric_step (st : Obj) (e : Event) : allNumeric st -> allNumeric (step st e).
Proof.
  intros Hst. destruct e as [field parsed | field text | vendorId ok]; simpl.
  - intros k. unfold onChange.
    destruct (decide (keyName field = keyName k)) as [E | N].
    + rewrite E, lookup_insert_eq. eexists; split; [reflexivity | apply orZero_not_NaN].
    + rewrite lookup_insert_ne by exact N. apply Hst.
  - unfold saveRemark. destruct (decide (text = "")); [exact Hst|].
    intros k. rewrite lookup_insert_ne by apply remarkKey_not_score. apply Hst.
  - destruct ok; simpl; [apply allNumeric_empty | exact Hst].
Qed.

Lemma allNumeric_fold (events : list Event) (st : Obj) :
  allNumeric st -> allNumeric (fold_left step events st).
Proof.
  revert st. induction events as [| e events IH]; intros st Hst; simpl;
    [exact Hst | apply IH, allNumeric_step, Hst].
Qed.

Lemma allNumeric_numeric (st : Obj) : allNumeric st -> numeric st = true.
Proof.
  intros Hst. unfold numeric. apply forallb_forall. intros k _.
  destruct (Hst k) as (x & -> & Hx). now rewrite Hx.
Qed.

(** C8 (counterexample): no validation stands between the form and the
    aggregator.  After 50 is typed into the experience input, the form state
    holds 50 (outside [0,10]); [handleSubmitEvaluation] calls the aggregator
    on it, obtains 50, and posts the body with that score. *)
Lemma aggregator_reached_out_of_range :
  validSubmission typedFifty = false
  /\ typedFifty !! "experienceScore" = Some (VNum 50)
  /\ exists body,
       fst (handleSubmitEvaluation 7 true typedFifty)
       = [ CallAggregator typedFifty 50; Fetch "/api/evaluations" body;
           ToastSubmitted 50 ]
       /\ body !! "experienceScore" = Some (VNum 50)
       /\ body !! "overallScore" = Some (VNum 50).
Proof.
  split; [vm_compute; reflexivity|].
  split; [vm_compute; reflexivity|].
  assert (E : calculateWeightedScore (scoresOf typedFifty) = 50%float)
    by (vm_compute; reflexivity).
  exists (requestBody 7 typedFifty 50).
  unfold handleSubmitEvaluation. rewrite E.
  split; [reflexivity|]. split; vm_compute; reflexivity.
Qed.

(** C8 (as amended): whatever the user does, the form state holds every one
    of the 18 criterion keys with a number that is not NaN (text that does not
    parse is stored as 0), and [handleSubmitEvaluation] first calls the
    aggregator on that state, as it is, and then posts it with the score. *)
Theorem form_scores_numeric (events : list Event) :
  numeric (run events) = true
  /\ (forall k, exists x,
        run events !! keyName k = Some (VNum x) /\ isNaN x = false)
  /\ (forall vendorId ok, exists score toast,
        fst (handleSubmitEvaluation vendorId ok (run events))
        = [ CallAggregator (run events) score;
            Fetch "/api/evaluations" (requestBody vendorId (run events) score);
            toast ]
        /\ score = calculateWeightedScore (scoresOf (run events))).
Proof.
  assert (Hrun : allNumeric (run events))
    by (apply allNumeric_fold, allNumeric_empty).
  split; [apply allNumeric_numeric, Hrun|].
  split; [exact Hrun|].
  intros vendorId ok. unfold handleSubmitEvaluation.
  destruct ok; simpl; eexists; eexists; split; reflexivity.
Qed.

End FormProperties.

(* ===================================================================== *)
(** * Properties of the submission endpoint *)
(* ===================================================================== *)

Section ApiProperties.
Import Form Api.

Lemma keyName_not_overallScore (k : ScoreKey) : keyName k <> "overallScore".
Proof. destruct k; discriminate. Qed.

Lemma same_scoreAt (b1 b2 : Obj) (k : ScoreKey) :
  sameCriterionScores b1 b2 -> scoreAt b1 k = scoreAt b2 k.
Proof. intros S. unfold scoreAt. now rewrite (S k). Qed.

Lemma forallb_pointwise {A} (f g : A -> bool) (l : list A) :
  (forall x, f x = g x) -> forallb f l = forallb g l.
Proof.
  intros E. induction l as [| x l IH]; simpl; [reflexivity | now rewrite E, IH].
Qed.

Lemma same_validSubmission (b1 b2 : Obj) :
  sameCriterionScores b1 b2 -> validSubmission b1 = validSubmission b2.
Proof.
  intros S. unfold validSubmission. apply forallb_pointwise. intros k.
  now rewrite (S k).
Qed.

(** What the endpoint stores for an accepted body. *)
Lemma submitEvaluation_created (body : Obj) (db : list Evaluation) (row : Evaluation) :
  fst (submitEvaluation body db) = Created row ->
  overallScore row = calculateWeightedScore (scoresOf body)
  /\ criterionScores row = scoresOf body
  /\ validSubmission body = true
  /\ snd (submitEvaluation body db) = db ++ [row].
Proof.
  unfold submitEvaluation.
  destruct (identifiers body) as [[[v e] d]|]; [| discriminate].
  destruct (validSubmission body); [| discriminate].
  cbn [fst snd]. intros [= <-]. repeat split.
Qed.

(** C3: for two submission requests that agree on all criterion scores,
    whatever [overallScore] each carries, the endpoint stores the same
    [overallScore]; the stored value is the aggregator's result on the
    criterion scores of the request, and the row is appended with it. *)
Theorem overall_score_recomputed (b1 b2 : Obj) (db1 db2 : list Evaluation) :
  sameCriterionScores b1 b2 ->
  (forall row1 row2,
     fst (submitEvaluation b1 db1) = Created row1 ->
     fst (submitEvaluation b2 db2) = Created row2 ->
     overallScore row1 = overallScore row2)
  /\ (forall row, fst (submitEvaluation b1 db1) = Created row ->
        overallScore row = calculateWeightedScore (criterionScores row)
        /\ criterionScores row = scoresOf b1
        /\ snd (submitEvaluation b1 db1) = db1 ++ [row]).
Proof.
  intros S.
  assert (E : calculateWeightedScore (scoresOf b1) = calculateWeightedScore (scoresOf b2))
    by (apply calculateWeightedScore_ext; intros k; apply same_scoreAt, S).
  split.
  - intros row1 row2 H1 H2.
    apply submitEvaluation_created in H1 as (-> & _).
    apply submitEvaluation_created in H2 as (-> & _). exact E.
  - intros row H.
    apply submitEvaluation_created in H as (Ho & Hc & _ & Hdb).
    rewrite Hc. auto.
Qed.

Lemma overall_score_recomputed_witness :
  sameCriterionScores honest forged
  /\ honest !! "overallScore" = Some (VNum 50)
  /\ forged !! "overallScore" = Some (VNum 100)
  /\ storedOverallScore (fst (submitEvaluation honest [])) = Some 50%float
  /\ storedOverallScore (fst (submitEvaluation forged [])) = Some 50%float
  /\ (forall row1 row2,
        fst (submitEvaluation honest []) = Created row1 ->
        fst (submitEvaluation forged []) = Created row2 ->
        overallScore row1 = overallScore row2).
Proof.
  assert (S : sameCriterionScores honest forged).
  { intros k. unfold forged. rewrite lookup_insert_ne; [reflexivity|].
    intros E. symmetry in E. revert E. apply keyName_not_overallScore. }
  split; [exact S|].
  split; [vm_compute; reflexivity|].
  split; [vm_compute; reflexivity|].
  split; [vm_compute; reflexivity|].
  split; [vm_compute; reflexivity|].
  exact (proj1 (overall_score_recomputed honest forged [] [] S)).
Defined.

End ApiProperties.

(* ===================================================================== *)
(** * Properties of the vote table and of the decision *)
(* ===================================================================== *)

Section VoteProperties.
Import Votes.

Lemma hasKey_true (v u : Z) (r : VendorVote) :
  hasKey v u r = true <-> uniqueKey r = (v, u).
Proof. unfold hasKey. apply bool_decide_eq_true. Qed.

Lemma existsb_hasKey_false (v u : Z) (l : list VendorVote) :
  existsb (hasKey v u) l = false -> (v, u) ∉ List.map uniqueKey l.
Proof.
  induction l as [| r l IH]; simpl; [intros _; apply not_elem_of_nil|].
  intros E. apply orb_false_iff in E as [Hr Hl].
  apply not_elem_of_cons. split; [| now apply IH].
  intros Hin. symmetry in Hin. apply hasKey_true in Hin. congruence.
Qed.

Lemma NoDup_snoc_fresh {A} (l : list A) (a : A) :
  NoDup l -> a ∉ l -> NoDup (l ++ [a]).
Proof.
  intros Hl Ha. apply NoDup_app. split; [exact Hl|]. split.
  - intros x Hx Hx'. apply list_elem_of_singleton in Hx'. now subst.
  - apply NoDup_singleton.
Qed.

Lemma setVote_key (v u : Z) (x : Vote) (r : VendorVote) :
  uniqueKey (setVote v u x r) = uniqueKey r.
Proof. unfold setVote. now destruct (hasKey v u r). Qed.

Lemma update_keys (v u : Z) (x : Vote) (db : Db) : keys (update v u x db) = keys db.
Proof.
  unfold keys, update. cbn [rows]. rewrite List.map_map.
  apply List.map_ext. intros r. apply setVote_key.
Qed.

Lemma NoDup_map_filter {A B} (f : A -> B) (p : A -> bool) (l : list A) :
  NoDup (List.map f l) -> NoDup (List.map f (List.filter p l)).
Proof.
  induction l as [| a l IH]; simpl; [trivial|].
  intros H. apply NoDup_cons in H as [Ha Hl].
  destruct (p a); simpl; [| now apply IH].
  apply NoDup_cons. split; [| now apply IH].
  intros Hin. apply Ha.
  apply list_elem_of_In, in_map_iff in Hin as (b & E & Hb).
  apply filter_In in Hb as [Hb _]. apply list_elem_of_In, in_map_iff. eauto.
Qed.

Lemma upsert_keys_voted (v u : Z) (x : Vote) (db : Db) :
  existsb (hasKey v u) (rows db) = true -> keys (upsert v u x db) = keys db.
Proof. intros E. unfold upsert. rewrite E. apply update_keys. Qed.

Lemma create_NoDup (v u : Z) (x : Vote) (db db' : Db) :
  create v u x db = Some db' -> NoDup (keys db) -> NoDup (keys db').
Proof.
  unfold create. destruct (existsb (hasKey v u) (rows db)) eqn:E; [discriminate|].
  intros [= <-] H. unfold keys. cbn [rows]. rewrite List.map_app.
  apply NoDup_snoc_fresh; [exact H | now apply existsb_hasKey_false].
Qed.

Lemma upsert_NoDup (v u : Z) (x : Vote) (db : Db) :
  NoDup (keys db) -> NoDup (keys (upsert v u x db)).
Proof.
  intros H. unfold upsert.
  destruct (existsb (hasKey v u) (rows db)) eqn:E.
  - now rewrite update_keys.
  - destruct (create v u x db) as [db'|] eqn:C; [| exact H].
    eapply create_NoDup; eauto.
Qed.

Lemma castVote_rows (v u : Z) (x : Vote) (db : Db) :
  rows (castVote v u x db) = rows (upsert v u x db).
Proof. reflexivity. Qed.

Lemma apply_NoDup (db : Db) (op : Op) : NoDup (keys db) -> NoDup (keys (apply db op)).
Proof.
  intros H. destruct op as [v u x | v u x | v u]; simpl.
  - destruct (create v u x db) as [db'|] eqn:C; [| exact H].
    eapply create_NoDup; eauto.
  - unfold keys. rewrite castVote_rows. now apply upsert_NoDup.
  - unfold keys, delete. cbn [rows]. now apply NoDup_map_filter.
Qed.

Lemma fold_NoDup (ops : list Op) (db : Db) :
  NoDup (keys db) -> NoDup (keys (fold_left apply ops db)).
Proof.
  revert db. induction ops as [| op ops IH]; intros db H; simpl;
    [exact H | apply IH, apply_NoDup, H].
Qed.

Lemma NoDup_at_most_one (v u : Z) (l : list VendorVote) :
  NoDup (List.map uniqueKey l) -> (length (List.filter (hasKey v u) l) <= 1)%nat.
Proof.
  induction l as [| r l IH]; simpl; [lia|].
  intros H. apply NoDup_cons in H as [Hr Hl].
  destruct (hasKey v u r) eqn:E; [| now apply IH].
  apply hasKey_true in E. rewrite E in Hr.
  assert (F : List.filter (hasKey v u) l = []).
  { clear IH Hl. induction l as [| r' l IH]; simpl in *; [reflexivity|].
    apply not_elem_of_cons in Hr as [Hne Hr].
    destruct (hasKey v u r') eqn:E'.
    - apply hasKey_true in E'. congruence.
    - now apply IH. }
  rewrite F. simpl. lia.
Qed.

Lemma find_setVote (v u : Z) (x : Vote) (l : list VendorVote) :
  existsb (hasKey v u) l = true ->
  vote <$> List.find (hasKey v u) (List.map (setVote v u x) l) = Some x.
Proof.
  induction l as [| r l IH]; simpl; [discriminate|].
  unfold setVote at 1 2.
  destruct (hasKey v u r) eqn:E; simpl.
  - intros _. unfold hasKey at 1, uniqueKey. cbn [vendorId userId].
    apply hasKey_true in E. unfold uniqueKey in E. now rewrite E, bool_decide_eq_true_2.
  - rewrite E. exact IH.
Qed.

Lemma filter_setVote (v u : Z) (x : Vote) (l : list VendorVote) :
  length (List.filter (hasKey v u) (List.map (setVote v u x) l))
  = length (List.filter (hasKey v u) l).
Proof.
  induction l as [| r l IH]; simpl; [reflexivity|].
  assert (E : hasKey v u (setVote v u x r) = hasKey v u r).
  { unfold hasKey. now rewrite setVote_key. }
  rewrite E. destruct (hasKey v u r); simpl; now rewrite IH.
Qed.

Lemma find_existsb (v u : Z) (l : list VendorVote) :
  List.find (hasKey v u) l <> None -> existsb (hasKey v u) l = true.
Proof.
  induction l as [| r l IH]; simpl; [tauto|].
  destruct (hasKey v u r); [reflexivity | exact IH].
Qed.

Lemma filter_existsb (v u : Z) (l : list VendorVote) :
  existsb (hasKey v u) l = true -> (1 <= length (List.filter (hasKey v u) l))%nat.
Proof.
  induction l as [| r l IH]; simpl; [discriminate|].
  destruct (hasKey v u r); simpl; [lia | exact IH].
Qed.

(** C7: in every state the table reaches through creates, votes and
    deletes, no two rows share (vendorId, userId); and when a user who has
    voted on a vendor votes again, the row count stays, the keys stay, and
    the one row of the pair carries the new vote. *)
Theorem one_vote_per_pair (ops : list Op) :
  NoDup (List.map uniqueKey (rows (runOps ops)))
  /\ (forall v u, (length (rowsFor v u (runOps ops)) <= 1)%nat)
  /\ (forall v u x, hasVoted v u (runOps ops) ->
        length (rows (castVote v u x (runOps ops))) = length (rows (runOps ops))
        /\ List.map uniqueKey (rows (castVote v u x (runOps ops)))
           = List.map uniqueKey (rows (runOps ops))
        /\ length (rowsFor v u (castVote v u x (runOps ops))) = 1%nat
        /\ voteOf v u (castVote v u x (runOps ops)) = Some x).
Proof.
  assert (H : NoDup (keys (runOps ops))).
  { apply fold_NoDup. apply NoDup_nil_2. }
  split; [exact H|].
  split; [intros v u; apply NoDup_at_most_one, H|].
  intros v u x Hv. unfold hasVoted in Hv.
  assert (R : rows (castVote v u x (runOps ops))
              = List.map (setVote v u x) (rows (runOps ops))).
  { rewrite castVote_rows. unfold upsert. now rewrite Hv. }
  unfold rowsFor, voteOf. rewrite R.
  split; [apply length_map|].
  split; [rewrite List.map_map; apply List.map_ext; intros r; apply setVote_key|].
  split; [| now apply find_setVote].
  rewrite filter_setVote.
  pose proof (NoDup_at_most_one v u _ H). pose proof (filter_existsb v u _ Hv). lia.
Qed.

Lemma one_vote_per_pair_witness :
  hasVoted 1 2 (runOps [CastVote 1 2 ACCEPT])
  /\ length (rows (castVote 1 2 REJECT (runOps [CastVote 1 2 ACCEPT]))) = 1%nat
  /\ voteOf 1 2 (castVote 1 2 REJECT (runOps [CastVote 1 2 ACCEPT])) = Some REJECT.
Proof.
  assert (Hv : hasVoted 1 2 (runOps [CastVote 1 2 ACCEPT])) by reflexivity.
  destruct (one_vote_per_pair [CastVote 1 2 ACCEPT]) as (_ & _ & H).
  destruct (H 1 2 REJECT Hv) as (Hlen & _ & _ & Hvote).
  split; [exact Hv|]. split; [exact Hlen | exact Hvote].
Defined.

End VoteProperties.

Section DecisionProperties.
Import Votes.

Lemma latestVotes_snoc (votes : list VendorVote) (r : VendorVote) :
  latestVotes (votes ++ [r]) = <[userId r := vote r]> (latestVotes votes).
Proof. unfold latestVotes. now rewrite fold_left_app. Qed.

Lemma lastVoteOf_snoc (votes : list VendorVote) (r : VendorVote) (u : Z) :
  lastVoteOf (votes ++ [r]) u
  = if decide (userId r = u) then Some (vote r) else lastVoteOf votes u.
Proof.
  unfold lastVoteOf. rewrite List.filter_app. cbn [List.filter].
  destruct (decide (userId r = u)) as [E | N].
  - rewrite bool_decide_eq_true_2 by exact E. now rewrite last_snoc.
  - rewrite bool_decide_eq_false_2 by exact N. now rewrite app_nil_r.
Qed.

(** The map built in one pass holds, for each user, that user's last vote. *)
Lemma latestVotes_lookup (votes : list VendorVote) (u : Z) :
  latestVotes votes !! u = lastVoteOf votes u.
Proof.
  induction votes as [| r votes IH] using rev_ind; [reflexivity|].
  rewrite latestVotes_snoc, lastVoteOf_snoc, lookup_insert.
  destruct (decide (userId r = u)); [reflexivity | exact IH].
Qed.

Lemma lastVoteOf_voter (votes : list VendorVote) (u : Z) (x : Vote) :
  lastVoteOf votes u = Some x -> u ∈ voters votes.
Proof.
  unfold voters. induction votes as [| r votes IH] using rev_ind; [discriminate|].
  rewrite lastVoteOf_snoc, fmap_app, list_to_set_app_L.
  destruct (decide (userId r = u)) as [E | N]; [subst; set_solver|].
  intros H. apply elem_of_union. left. now apply IH.
Qed.

(** Counting in the map is counting voters by their last vote. *)
Lemma countVotes_tally (x : Vote) (votes : list VendorVote) :
  countVotes x (latestVotes votes) = tally x votes.
Proof.
  unfold countVotes, tally. rewrite <- size_dom. f_equal.
  apply dom_filter_L. intros u. rewrite elem_of_filter. split.
  - intros [Hx _]. exists x. now rewrite latestVotes_lookup.
  - intros (y & Hy & Hx). simpl in Hx. subst y.
    rewrite latestVotes_lookup in Hy. split; [exact Hy|].
    eapply lastVoteOf_voter, Hy.
Qed.

(** C2: for every sequence of votes, with the accepts and the rejects
    counted among the last vote of each voter, [resolveDecision] gives
    ACCEPTED when accepts exceed rejects, REJECTED when rejects exceed
    accepts and PENDING when they are equal; ACCEPT, ACCEPT, REJECT gives
    ACCEPTED, ACCEPT, REJECT gives PENDING, no vote gives PENDING, and ACCEPT
    then REJECT by the same user counts as one REJECT (REJECTED). *)
Theorem decision_by_latest_votes (votes : list VendorVote) :
  ((tally REJECT votes < tally ACCEPT votes)%nat -> resolveDecision votes = ACCEPTED)
  /\ ((tally ACCEPT votes < tally REJECT votes)%nat -> resolveDecision votes = REJECTED)
  /\ (tally ACCEPT votes = tally REJECT votes -> resolveDecision votes = PENDING)
  /\ resolveDecision [ballot 1 ACCEPT; ballot 2 ACCEPT; ballot 3 REJECT] = ACCEPTED
  /\ resolveDecision [ballot 1 ACCEPT; ballot 2 REJECT] = PENDING
  /\ resolveDecision [] = PENDING
  /\ tally ACCEPT [ballot 1 ACCEPT; ballot 1 REJECT] = 0%nat
  /\ tally REJECT [ballot 1 ACCEPT; ballot 1 REJECT] = 1%nat
  /\ resolveDecision [ballot 1 ACCEPT; ballot 1 REJECT] = REJECTED.
Proof.
  unfold resolveDecision at 1 2 3. cbv zeta. rewrite !countVotes_tally.
  destruct (decide (tally REJECT votes < tally ACCEPT votes)%nat) as [Ha | Ha];
    [| destruct (decide (tally ACCEPT votes < tally REJECT votes)%nat) as [Hr | Hr]].
  all: split; [intros H; reflexivity || lia|].
  all: split; [intros H; reflexivity || lia|].
  all: split; [intros H; reflexivity || lia|].
  all: repeat split; vm_compute; reflexivity.
Qed.

Lemma decision_by_latest_votes_witness :
  (tally REJECT [ballot 1 ACCEPT; ballot 2 ACCEPT; ballot 2 REJECT; ballot 2 ACCEPT]
   < tally ACCEPT [ballot 1 ACCEPT; ballot 2 ACCEPT; ballot 2 REJECT; ballot 2 ACCEPT])%nat
  /\ resolveDecision [ballot 1 ACCEPT; ballot 2 ACCEPT; ballot 2 REJECT; ballot 2 ACCEPT]
     = ACCEPTED.
Proof.
  assert (H : (tally REJECT [ballot 1 ACCEPT; ballot 2 ACCEPT; ballot 2 REJECT; ballot 2 ACCEPT]
               < tally ACCEPT [ballot 1 ACCEPT; ballot 2 ACCEPT; ballot 2 REJECT; ballot 2 ACCEPT])%nat)
    by (vm_compute; lia).
  split; [exact H|].
  exact (proj1 (decision_by_latest_votes _) H).
Defined.

End DecisionProperties.

(* ===================================================================== *)
(** * Properties of the deployment-error handler *)
(* ===================================================================== *)

Section DeploymentProperties.
Import Deployment.


(** Only the 201 answer comes with a new row. *)
Lemma handler_writes_only_on_201 (dbUp : bool) (req : Request) (t : Table) :
  snd (handler dbUp req t) = t \/ status (fst (handler dbUp req t)) = 201.
Proof.
  unfold handler, attempt.
  destruct (negb (method req =? "POST")%string && negb (method req =? "GET")%string);
    [now left|].
  destruct (method req =? "GET")%string; [destruct dbUp; now left|].
  destruct (body req) as [b|]; [| now left].
  destruct (negb (truthy (errorMessage b)) || negb (truthy (environment b)));
    [now left|].
  destruct (create dbUp _ t) as [[row t']|]; [now right | now left].
Qed.






End DeploymentProperties.

(* ===================================================================== *)
(** * Properties of [connectDB] *)
(* ===================================================================== *)

Section ConnectProperties.
Import Database.

Lemma countersFrom_S (c : Z) (n : nat) :
  countersFrom c (S n) = (c + 1) :: countersFrom (c + 1) n.
Proof.
  unfold countersFrom. cbn [seq List.map]. f_equal.
  rewrite <- seq_shift, List.map_map. apply List.map_ext. intros i. lia.
Qed.

Lemma connectDB_spec (MAX_RETRIES : option Z) (succeeds : nat -> bool)
    (n : nat) (st : State) :
  (length (retryLog (connectDB MAX_RETRIES succeeds n st)) <= budget MAX_RETRIES st)%nat
  /\ retryLog (connectDB MAX_RETRIES succeeds n st)
     = countersFrom (connectionRetries st)
         (length (retryLog (connectDB MAX_RETRIES succeeds n st)))
  /\ Forall (withinBound MAX_RETRIES) (retryLog (connectDB MAX_RETRIES succeeds n st))
  /\ (returned (connectDB MAX_RETRIES succeeds n st) = true ->
        (isConnected st = true
         /\ final (connectDB MAX_RETRIES succeeds n st) = st
         /\ retryLog (connectDB MAX_RETRIES succeeds n st) = [])
        \/ (isConnected st = false
            /\ final (connectDB MAX_RETRIES succeeds n st) = connected
            /\ succeeds (n + length (retryLog (connectDB MAX_RETRIES succeeds n st)))%nat
               = true
            /\ (forall i, (i < length (retryLog (connectDB MAX_RETRIES succeeds n st)))%nat ->
                  succeeds (n + i)%nat = false)))
  /\ (returned (connectDB MAX_RETRIES succeeds n st) = false ->
        isConnected st = false
        /\ (forall i, (i <= length (retryLog (connectDB MAX_RETRIES succeeds n st)))%nat ->
              succeeds (n + i)%nat = false)
        /\ final (connectDB MAX_RETRIES succeeds n st)
           = failed (connectionRetries st
                     + Z.of_nat (length (retryLog (connectDB MAX_RETRIES succeeds n st))))
        /\ ~ below (connectionRetries (final (connectDB MAX_RETRIES succeeds n st)))
               MAX_RETRIES).
Proof.
  funelim (connectDB MAX_RETRIES succeeds n st).
  - (* already connected *)
    cbn [retryLog returned final length].
    split; [lia|]. split; [reflexivity|]. split; [constructor|].
    split; [intros _; left; repeat split; assumption | discriminate].
  - (* the attempt succeeds *)
    cbn [retryLog returned final length].
    split; [lia|]. split; [reflexivity|]. split; [constructor|].
    split; [| discriminate].
    intros _. right. rewrite Nat.add_0_r.
    split; [assumption|]. split; [reflexivity|]. split; [assumption|].
    intros i Hi. lia.
  - (* the attempt fails and is retried *)
    clear Heqcall Heq.
    destruct H as (Hlen & Hlog & Hall & Htrue & Hfalse).
    cbn [retryLog returned final length] in *.
    set (r := connectDB MAX_RETRIES succeeds (S n) (failed (connectionRetries st + 1))) in *.
    split.
    { unfold budget in *. cbn [failed connectionRetries] in Hlen.
      destruct MAX_RETRIES as [m|]; simpl in *; [lia | tauto]. }
    split.
    { rewrite countersFrom_S. f_equal. exact Hlog. }
    split.
    { constructor; [| exact Hall].
      destruct MAX_RETRIES as [m|]; simpl in *; [lia | tauto]. }
    split.
    + intros Hr. right.
      destruct (Htrue Hr) as [(Hx & _) | (_ & Hfin & Hs & Hprev)]; [discriminate|].
      split; [assumption|]. split; [exact Hfin|]. split.
      * rewrite <- Hs. f_equal. lia.
      * intros [| i] Hi; [now rewrite Nat.add_0_r|].
        replace (n + S i)%nat with (S n + i)%nat by lia. apply Hprev. lia.
    + intros Hr. destruct (Hfalse Hr) as (_ & Hi & Hfin & Hb).
      split; [assumption|]. split.
      * intros [| i] Hle; [now rewrite Nat.add_0_r|].
        replace (n + S i)%nat with (S n + i)%nat by lia. apply Hi. lia.
      * split; [| exact Hb].
        rewrite Hfin. cbn [failed connectionRetries]. f_equal. lia.
  - (* the attempt fails and the counter has reached the bound *)
    cbn [retryLog returned final length].
    split; [lia|]. split; [reflexivity|]. split; [constructor|].
    split; [discriminate|]. intros _.
    split; [assumption|]. split.
    + intros i Hi. assert (i = 0%nat) as -> by lia. now rewrite Nat.add_0_r.
    + split; [f_equal; lia | assumption].
Qed.



End ConnectProperties.

(* ===================================================================== *)
(** * Further properties of the score and of what the form shows *)
(* ===================================================================== *)

Section ScoreBounds.
Import Display.
#[local] Open Scope Q_scope.

Ltac pose_all H :=
  pose proof (H experienceScore); pose proof (H caseStudiesScore);
  pose proof (H domainExperienceScore); pose proof (H approachAlignmentScore);
  pose proof (H understandingChallengesScore); pose proof (H solutionTailoringScore);
  pose proof (H strategyAlignmentScore); pose proof (H methodologyScore);
  pose proof (H innovativeStrategiesScore); pose proof (H stakeholderEngagementScore);
  pose proof (H toolsFrameworkScore); pose proof (H costStructureScore);
  pose proof (H costEffectivenessScore); pose proof (H roiScore);
  pose proof (H referencesScore); pose proof (H testimonialsScore);
  pose proof (H sustainabilityScore); pose proof (H deliverablesScore).

(** The score as a linear form: each point of a criterion is worth ten
    times its weight. *)
Lemma score_linear (s : ScoreKey -> Q) :
  calculateWeightedScore s
  == s experienceScore * 1 + s caseStudiesScore * 1
     + s domainExperienceScore * (1 # 2)
     + s approachAlignmentScore * (7 # 10) + s understandingChallengesScore * (7 # 10)
     + s solutionTailoringScore * (6 # 10)
     + s strategyAlignmentScore * (7 # 10) + s methodologyScore * (6 # 10)
     + s innovativeStrategiesScore * (1 # 2) + s stakeholderEngagementScore * (1 # 2)
     + s toolsFrameworkScore * (3 # 10)
     + s costStructureScore * (6 # 10) + s costEffectivenessScore * (1 # 2)
     + s roiScore * (3 # 10)
     + s referencesScore * (6 # 10) + s testimonialsScore * (2 # 10)
     + s sustainabilityScore * (2 # 10)
     + s deliverablesScore * (1 # 2).
Proof. unfold_score. field. Qed.

Lemma categoryScore_linear (c : Category) (s : ScoreKey -> Q) :
  categoryScore c s
  == match c with
     | Experience => s experienceScore * 1 + s caseStudiesScore * 1
                     + s domainExperienceScore * (1 # 2)
     | Objectives => s approachAlignmentScore * (7 # 10)
                     + s understandingChallengesScore * (7 # 10)
                     + s solutionTailoringScore * (6 # 10)
     | Methodology => s strategyAlignmentScore * (7 # 10) + s methodologyScore * (6 # 10)
                      + s innovativeStrategiesScore * (1 # 2)
                      + s stakeholderEngagementScore * (1 # 2)
                      + s toolsFrameworkScore * (3 # 10)
     | Cost => s costStructureScore * (6 # 10) + s costEffectivenessScore * (1 # 2)
               + s roiScore * (3 # 10)
     | References => s referencesScore * (6 # 10) + s testimonialsScore * (2 # 10)
                     + s sustainabilityScore * (2 # 10)
     | Deliverables => s deliverablesScore * (1 # 2)
     end.
Proof. destruct c; unfold_score; field. Qed.

(** X1: in exact arithmetic, when every value lies in [0,10] the score lies
    in [0,100], and the sub-score under each heading lies between 0 and the
    percentage of the heading. *)
Theorem score_within_bounds (s : ScoreKey -> Q) :
  (forall k, 0 <= s k <= 10) ->
  0 <= calculateWeightedScore s <= 100
  /\ (forall c, 0 <= categoryScore c s <= 100 * categoryShare c).
Proof.
  intros H. pose_all H. split.
  - rewrite score_linear. lra.
  - intros c. rewrite categoryScore_linear.
    destruct c; cbn [categoryShare]; lra.
Qed.

Lemma score_within_bounds_witness :
  (forall k, 0 <= uniform (num := Q) 7 k <= 10)
  /\ 0 <= calculateWeightedScore (uniform (num := Q) 7) <= 100.
Proof.
  assert (H : forall k, 0 <= uniform (num := Q) 7 k <= 10)
    by (intros k; unfold uniform; lra).
  split; [exact H | exact (proj1 (score_within_bounds (uniform 7) H))].
Defined.

(** X2: in exact arithmetic, adding [d] to the value of one criterion adds
    [d] times ten times its weight to the score (a point of a 10% criterion
    is worth 1, a point of a 2% criterion 0.2); hence a mapping that is
    nowhere lower never scores lower. *)
Theorem point_worth (s s' : ScoreKey -> Q) (k : ScoreKey) (d : Q) :
  calculateWeightedScore (raise k d s) == calculateWeightedScore s + d * (10 * weight k)
  /\ ((forall j, s j <= s' j) ->
      calculateWeightedScore s <= calculateWeightedScore s').
Proof.
  split.
  - rewrite !score_linear. unfold raise.
    destruct k;
      repeat match goal with
             | |- context [decide (?a = ?b)] =>
                 destruct (decide (a = b)) as [? | ?]; try congruence
             end;
      cbn [weight add exact]; field.
  - intros H. pose_all H. rewrite !score_linear. lra.
Qed.

Lemma point_worth_witness :
  (forall j, uniform (num := Q) 5 j <= raise experienceScore 1 (uniform 5) j)
  /\ calculateWeightedScore (uniform (num := Q) 5)
     <= calculateWeightedScore (raise experienceScore 1 (uniform 5))
  /\ calculateWeightedScore (raise experienceScore 1 (uniform 5))
     == calculateWeightedScore (uniform (num := Q) 5) + 1.
Proof.
  assert (H : forall j, uniform (num := Q) 5 j <= raise experienceScore 1 (uniform 5) j).
  { intros j. unfold raise, uniform. destruct (decide (j = experienceScore)); simpl; lra. }
  split; [exact H|]. split.
  - exact (proj2 (point_worth (uniform 5) (raise experienceScore 1 (uniform 5))
                    experienceScore 0) H).
  - vm_compute. reflexivity.
Defined.

Lemma weightValue_exact (k : ScoreKey) :
  weightValue (num := Q) (weightLabel k) = Some (weight k).
Proof. destruct k; vm_compute; reflexivity. Qed.

(** X3: the percentage written beside each input is the weight the
    aggregator multiplies that criterion by: parsing the label as
    [renderScoreInput] does gives the very double, and the very fraction, of
    the literal in [calculateWeightedScore]. *)
Theorem labels_match_weights (k : ScoreKey) :
  weightValue (num := float) (weightLabel k) = Some (lit (weight k))
  /\ weightValue (num := Q) (weightLabel k) = Some (weight k)
  /\ removeFirst percentSign (weightLabel k) +:+ "%" = weightLabel k.
Proof. destruct k; repeat split; vm_compute; reflexivity. Qed.

(** X4: the "Weighted Score" shown beside an input is [score * weight * 100],
    which is ten times what the criterion adds to the total (the division by
    10 of the aggregator is missing): a 10 on a 10% criterion shows 100 and
    adds 10, and with every value at 10 the 18 numbers shown add up to 1000
    while the total is 100. *)
Theorem shown_score_is_tenfold (scores : ScoreKey -> Q) (k : ScoreKey) :
  (exists shown, weightedScore (scores k) (weightLabel k) = Some shown
                 /\ shown == 10 * contribution scores k)
  /\ weightedScore 10%float (weightLabel experienceScore) = Some 100%float
  /\ contribution (uniform 10%float) experienceScore = 10%float
  /\ sumShown (shownAt 10) == 1000
  /\ calculateWeightedScore (uniform (num := Q) 10) == 100.
Proof.
  split.
  - unfold weightedScore. rewrite weightValue_exact.
    eexists. split; [reflexivity|].
    unfold contribution. cbn [lit add mul div exact]. field.
  - repeat split; vm_compute; reflexivity.
Qed.

End ScoreBounds.

(* ===================================================================== *)
(** * Properties of the remark dialog and of the posted body *)
(* ===================================================================== *)

Section RemarkProperties.
Import Form Remarks.

Lemma keyName_inj (f k : ScoreKey) : keyName f = keyName k -> f = k.
Proof. destruct f, k; intros E; try reflexivity; discriminate E. Qed.

Lemma declaredRemark_not_score (k f : ScoreKey) : keyName f <> declaredRemark k.
Proof. destruct k, f; vm_compute; discriminate. Qed.

Lemma declaredRemark_not_remarkKey (k f : ScoreKey) : remarkKey f <> declaredRemark k.
Proof. destruct k, f; vm_compute; discriminate. Qed.

Lemma afterRender_evaluation (old new : Dialog) :
  newEvaluation (afterRender old new) = newEvaluation new.
Proof. unfold afterRender. now destruct (decide _). Qed.

Lemma emptyEvaluation_score (k : ScoreKey) :
  emptyEvaluation !! keyName k = Some (VNum 0).
Proof. destruct k; reflexivity. Qed.

Lemma emptyEvaluation_no_remark (f : ScoreKey) : emptyEvaluation !! remarkKey f = None.
Proof. destruct f; reflexivity. Qed.

Lemma emptyEvaluation_no_declared (k : ScoreKey) :
  emptyEvaluation !! declaredRemark k = None.
Proof. destruct k; reflexivity. Qed.

(** What one event does to the form object. *)
Lemma step_evaluation (d : Dialog) (e : Event) :
  newEvaluation (step d e)
  = match e with
    | ScoreInput field parsed => onChange field parsed (newEvaluation d)
    | TimerFires => match timer d with
                    | Some (f, text) => <[remarkKey f := VStr text]> (newEvaluation d)
                    | None => newEvaluation d
                    end
    | Submit vendorId ok => if ok then emptyEvaluation else newEvaluation d
    | _ => newEvaluation d
    end.
Proof.
  unfold step. rewrite afterRender_evaluation.
  destruct e as [field parsed | field | text | | | | vendorId ok]; cbn [handle withEvaluation newEvaluation];
    try reflexivity.
  - now destruct (timer d) as [[f text]|].
  - now destruct (remarkField d).
  - now destruct ok.
Qed.

(** X5: a remark is stored under the input's field name followed by
    "Remark" ("experienceScoreRemark"), never under the remark property the
    interface and the table declare ("experienceRemark"): whatever the user
    does, no declared remark property is set in the form object or in the body
    that is posted. *)
Theorem remark_never_under_declared_name (events : list Event) (k : ScoreKey)
    (vendorId overallScore : float) :
  newEvaluation (run events) !! declaredRemark k = None
  /\ requestBody vendorId (newEvaluation (run events)) overallScore !! declaredRemark k
     = None
  /\ (forall f, remarkKey f <> declaredRemark k).
Proof.
  assert (H : forall d, newEvaluation d !! declaredRemark k = None ->
                        newEvaluation (runFrom d events) !! declaredRemark k = None).
  { induction events as [| e events IH]; intros d Hd; [exact Hd|].
    cbn [runFrom fold_left]. apply IH. rewrite step_evaluation.
    destruct e as [field parsed | field | text | | | | vendorId' ok]; try exact Hd.
    - unfold onChange. rewrite lookup_insert_ne by apply declaredRemark_not_score.
      exact Hd.
    - destruct (timer d) as [[f text]|]; [| exact Hd].
      rewrite lookup_insert_ne by apply declaredRemark_not_remarkKey. exact Hd.
    - destruct ok; [apply emptyEvaluation_no_declared | exact Hd]. }
  assert (R : newEvaluation (run events) !! declaredRemark k = None)
    by (apply H, emptyEvaluation_no_declared).
  split; [exact R|]. split; [| intros f; apply declaredRemark_not_remarkKey].
  unfold requestBody.
  rewrite !lookup_insert_ne by (destruct k; discriminate). exact R.
Qed.

(** X6: "Save Remark" writes nothing.  With a field selected, typing a text
    and pressing Save before the timer of the effect has fired leaves the form
    object as it was and no timer behind: the state that results does not
    depend on the text, which is lost. *)
Theorem save_discards_typed_remark (d : Dialog) (f : ScoreKey) (text : string) :
  remarkField d = Some f ->
  runFrom d [TypeRemark text; SaveRemark]
  = {| newEvaluation := newEvaluation d; remarkField := None;
       remarkDialogOpen := false; currentRemark := ""; timer := None |}
  /\ newEvaluation (runFrom d [TypeRemark text; SaveRemark; TimerFires])
     = newEvaluation d.
Proof.
  intros Hf.
  assert (E : runFrom d [TypeRemark text; SaveRemark]
              = {| newEvaluation := newEvaluation d; remarkField := None;
                   remarkDialogOpen := false; currentRemark := ""; timer := None |}).
  { cbn [runFrom fold_left]. unfold step at 2. cbn [handle].
    set (d1 := afterRender d _).
    assert (F1 : remarkField d1 = Some f).
    { unfold d1, afterRender. destruct (decide _); cbn; exact Hf. }
    assert (N1 : newEvaluation d1 = newEvaluation d)
      by (unfold d1; now rewrite afterRender_evaluation).
    unfold step. cbn [handle]. rewrite F1. unfold afterRender.
    destruct (decide _) as [[_ A] | _]; cbn in *; [congruence|].
    now rewrite N1. }
  split; [exact E|].
  change (runFrom d [TypeRemark text; SaveRemark; TimerFires])
    with (step (runFrom d [TypeRemark text; SaveRemark]) TimerFires).
  rewrite step_evaluation, E. reflexivity.
Qed.

Lemma save_discards_typed_remark_witness :
  remarkField (run [OpenRemark experienceScore]) = Some experienceScore
  /\ newEvaluation (run [OpenRemark experienceScore; TypeRemark "strong team";
                         SaveRemark; TimerFires])
     = emptyEvaluation.
Proof.
  assert (H : remarkField (run [OpenRemark experienceScore]) = Some experienceScore)
    by reflexivity.
  split; [exact H|].
  exact (proj2 (save_discards_typed_remark (run [OpenRemark experienceScore])
                  experienceScore "strong team" H)).
Defined.

(** X7: "Cancel" only closes the dialog.  With a field selected, typing a
    new text that is not empty, pressing Cancel and letting the timer fire
    stores the text under the field name followed by "Remark". *)
Theorem cancel_keeps_pending_remark (d : Dialog) (f : ScoreKey) (text : string) :
  remarkField d = Some f -> text <> "" -> text <> currentRemark d ->
  newEvaluation (runFrom d [TypeRemark text; CancelRemark; TimerFires])
  = <[remarkKey f := VStr text]> (newEvaluation d)
  /\ remarkDialogOpen (runFrom d [TypeRemark text; CancelRemark]) = false.
Proof.
  intros Hf Ht Hc.
  assert (E1 : step d (TypeRemark text)
               = {| newEvaluation := newEvaluation d; remarkField := Some f;
                    remarkDialogOpen := remarkDialogOpen d; currentRemark := text;
                    timer := Some (f, text) |}).
  { unfold step. cbn [handle]. unfold afterRender.
    destruct (decide _) as [[A _] | _]; cbn in *; [congruence|].
    rewrite Hf. destruct (decide (text = "")); [contradiction | reflexivity]. }
  assert (E2 : runFrom d [TypeRemark text; CancelRemark]
               = {| newEvaluation := newEvaluation d; remarkField := Some f;
                    remarkDialogOpen := false; currentRemark := text;
                    timer := Some (f, text) |}).
  { cbn [runFrom fold_left]. rewrite E1. unfold step. cbn [handle]. unfold afterRender.
    destruct (decide _) as [_ | N]; cbn in *; [reflexivity | exfalso; apply N; auto]. }
  split; [| now rewrite E2].
  change (runFrom d [TypeRemark text; CancelRemark; TimerFires])
    with (step (runFrom d [TypeRemark text; CancelRemark]) TimerFires).
  rewrite step_evaluation, E2. reflexivity.
Qed.

Lemma cancel_keeps_pending_remark_witness :
  remarkField (run [OpenRemark roiScore]) = Some roiScore
  /\ "too costly" <> "" /\ "too costly" <> currentRemark (run [OpenRemark roiScore])
  /\ newEvaluation (runFrom (run [OpenRemark roiScore])
                      [TypeRemark "too costly"; CancelRemark; TimerFires])
       !! remarkKey roiScore
     = Some (VStr "too costly")
  /\ remarkKey roiScore = "roiScoreRemark".
Proof.
  assert (Hf : remarkField (run [OpenRemark roiScore]) = Some roiScore) by reflexivity.
  assert (Ht : "too costly" <> "") by discriminate.
  assert (Hc : "too costly" <> currentRemark (run [OpenRemark roiScore])) by discriminate.
  split; [exact Hf|]. split; [exact Ht|]. split; [exact Hc|].
  split; [| reflexivity].
  pose proof (proj1 (cancel_keeps_pending_remark _ roiScore "too costly" Hf Ht Hc)) as E.
  rewrite E. apply lookup_insert_eq.
Defined.

Lemma remarksSound_opened : remarksSound opened.
Proof.
  split; [discriminate|].
  intros f v. cbn [opened newEvaluation]. now rewrite emptyEvaluation_no_remark.
Qed.

Lemma afterRender_timer (old new : Dialog) (f : ScoreKey) (t : string) :
  timer (afterRender old new) = Some (f, t) ->
  timer new = Some (f, t) \/ t <> "".
Proof.
  unfold afterRender. destruct (decide _); cbn [timer]; [now left|].
  destruct (remarkField new); [| discriminate].
  destruct (decide (currentRemark new = "")) as [| N]; [discriminate|].
  intros [= _ <-]. now right.
Qed.

Lemma handle_timer (d : Dialog) (e : Event) (f : ScoreKey) (t : string) :
  timer (handle d e) = Some (f, t) -> timer d = Some (f, t).
Proof.
  destruct e as [field parsed | field | text | | | | vendorId ok]; cbn; try tauto.
  - destruct (timer d) as [[f' t']|] eqn:T; cbn; [discriminate | now rewrite T].
  - destruct (remarkField d); cbn; tauto.
Qed.

Lemma remarksSound_step (d : Dialog) (e : Event) :
  remarksSound d -> remarksSound (step d e).
Proof.
  intros [Ht Hr]. split.
  - intros f t H. unfold step in H. apply afterRender_timer in H as [H | H]; [| exact H].
    apply handle_timer in H. eapply Ht, H.
  - intros f v. rewrite step_evaluation.
    destruct e as [field parsed | field | text | | | | vendorId ok]; try apply Hr.
    + unfold onChange.
      rewrite lookup_insert_ne by (intros E; symmetry in E; revert E; apply remarkKey_not_score).
      apply Hr.
    + destruct (timer d) as [[f' t']|] eqn:T; [| apply Hr].
      destruct (decide (remarkKey f' = remarkKey f)) as [E | N].
      * rewrite E, lookup_insert_eq. intros [= <-]. eauto.
      * rewrite lookup_insert_ne by exact N. apply Hr.
    + destruct ok; [| apply Hr]. now rewrite emptyEvaluation_no_remark.
Qed.

Lemma remarksSound_runFrom (events : list Event) (d : Dialog) :
  remarksSound d -> remarksSound (runFrom d events).
Proof.
  revert d. induction events as [| e events IH]; intros d H; [exact H|].
  cbn [runFrom fold_left]. apply IH, remarksSound_step, H.
Qed.

Lemma remark_stays (events : list Event) (d : Dialog) (f : ScoreKey) :
  forallb (fun e => negb (resets e)) events = true ->
  is_Some (newEvaluation d !! remarkKey f) ->
  is_Some (newEvaluation (runFrom d events) !! remarkKey f).
Proof.
  revert d. induction events as [| e events IH]; intros d Hn Hd; [exact Hd|].
  cbn [forallb] in Hn. apply andb_true_iff in Hn as [He Hn].
  cbn [runFrom fold_left]. apply IH; [exact Hn|].
  rewrite step_evaluation.
  destruct e as [field parsed | field | text | | | | vendorId ok]; try exact Hd.
  - unfold onChange.
    rewrite lookup_insert_ne by (intros E; symmetry in E; revert E; apply remarkKey_not_score).
    exact Hd.
  - destruct (timer d) as [[f' t']|]; [| exact Hd].
    destruct (decide (remarkKey f' = remarkKey f)) as [E | N].
    + rewrite E, lookup_insert_eq. eauto.
    + now rewrite lookup_insert_ne.
  - destruct ok; [discriminate He | exact Hd].
Qed.

(** X8: a remark, once stored, can be replaced but neither removed nor
    emptied: every remark in the form object is a text that is not empty, and
    a stored remark is still there after any further events among which no
    submission succeeds (a successful submission empties the form). *)
Theorem saved_remark_cannot_be_cleared (events later : list Event) (f : ScoreKey) :
  (forall v, newEvaluation (run events) !! remarkKey f = Some v ->
     exists t, v = VStr t /\ t <> "")
  /\ (is_Some (newEvaluation (run events) !! remarkKey f) ->
      forallb (fun e => negb (resets e)) later = true ->
      exists t, newEvaluation (runFrom (run events) later) !! remarkKey f = Some (VStr t)
                /\ t <> "").
Proof.
  assert (S : remarksSound (run events)) by apply remarksSound_runFrom, remarksSound_opened.
  split; [intros v; apply (proj2 S)|].
  intros Hs Hn.
  destruct (remark_stays later (run events) f Hn Hs) as [v Hv].
  destruct (proj2 (remarksSound_runFrom later _ S) f v Hv) as (t & -> & Ht).
  eauto.
Qed.

Lemma saved_remark_cannot_be_cleared_witness :
  is_Some (newEvaluation (run [OpenRemark roiScore; TypeRemark "x"; TimerFires])
             !! remarkKey roiScore)
  /\ exists t,
       newEvaluation
         (runFrom (run [OpenRemark roiScore; TypeRemark "x"; TimerFires])
            [TypeRemark ""; TimerFires; SaveRemark; Submit 7 false])
         !! remarkKey roiScore = Some (VStr t)
       /\ t <> "".
Proof.
  assert (H : is_Some (newEvaluation (run [OpenRemark roiScore; TypeRemark "x"; TimerFires])
                         !! remarkKey roiScore)).
  { exists (VStr "x"). vm_compute. reflexivity. }
  split; [exact H|].
  exact (proj2 (saved_remark_cannot_be_cleared
                  [OpenRemark roiScore; TypeRemark "x"; TimerFires]
                  [TypeRemark ""; TimerFires; SaveRemark; Submit 7 false] roiScore)
           H eq_refl).
Defined.

Lemma scoreAt_insert_score (st : Obj) (f k : ScoreKey) (x : float) :
  scoreAt (<[keyName f := VNum x]> st) k = if decide (f = k) then x else scoreAt st k.
Proof.
  unfold scoreAt. destruct (decide (f = k)) as [-> | N].
  - now rewrite lookup_insert_eq.
  - rewrite lookup_insert_ne; [reflexivity|]. intros E. apply N, keyName_inj, E.
Qed.

Lemma scoreAt_insert_remark (st : Obj) (f k : ScoreKey) (v : value) :
  scoreAt (<[remarkKey f := v]> st) k = scoreAt st k.
Proof.
  unfold scoreAt. now rewrite lookup_insert_ne by apply remarkKey_not_score.
Qed.

Lemma scoreAt_empty (k : ScoreKey) : scoreAt emptyEvaluation k = 0%float.
Proof. unfold scoreAt. now rewrite emptyEvaluation_score. Qed.

(** X9: the value the form holds for a criterion is the one last typed into
    its input since the form was last emptied ([parseFloat] of the text, with
    0 in place of NaN), and 0 when nothing was typed; remarks, the remark
    dialog and failed submissions do not touch it. *)
Theorem score_is_last_typed (events : list Event) (k : ScoreKey) :
  scoreAt (newEvaluation (run events)) k = shownValue (lastTyped k events).
Proof.
  unfold run, lastTyped.
  assert (H : forall d acc, scoreAt (newEvaluation d) k = shownValue acc ->
            scoreAt (newEvaluation (runFrom d events)) k
            = shownValue
                (fold_left (fun acc e =>
                   match e with
                   | ScoreInput field parsed => if decide (field = k) then Some parsed else acc
                   | Submit _ true => None
                   | _ => acc
                   end) events acc)).
  { induction events as [| e events IH]; intros d acc Hd; [exact Hd|].
    cbn [runFrom fold_left]. apply IH. rewrite step_evaluation.
    destruct e as [field parsed | field | text | | | | vendorId ok]; try exact Hd.
    - unfold onChange. rewrite scoreAt_insert_score.
      destruct (decide (field = k)); [reflexivity | exact Hd].
    - destruct (timer d) as [[f text]|]; [| exact Hd].
      now rewrite scoreAt_insert_remark.
    - destruct ok; [apply scoreAt_empty | exact Hd]. }
  apply H. apply scoreAt_empty.
Qed.


End RemarkProperties.

(* ===================================================================== *)
(** * Further properties of the deployment-error handler *)
(* ===================================================================== *)

Section DeploymentLogProperties.
Import Deployment DeploymentLog.

Lemma storable_not_falsy (b : Body) : storable b = true -> falsyField b = false.
Proof.
  unfold storable, falsyField, requiredText.
  destruct (errorMessage b) as [| | ? | ? | m | ?]; try discriminate.
  destruct (environment b) as [| | ? | ? | e | ?];
    try (destruct (String.eqb m ""); discriminate).
  cbn [truthy]. destruct (String.eqb m ""); [discriminate|].
  destruct (String.eqb e ""); [discriminate | reflexivity].
Qed.

Lemma create_storable (up : bool) (b : Body) (t : Table) :
  falsyField b = false ->
  create up
    {| errorMessage := errorMessage b; errorStack := errorStack b;
       errorCode := errorCode b; environment := environment b;
       component := component b;
       metadata := if truthy (metadata b) then metadata b else VObject "{}" |} t
  = if up && storable b
    then match rowOf b t with
         | Some row => Some (row, {| rows := rows t ++ [row]; nextId := nextId t + 1 |})
         | None => None
         end
    else None.
Proof.
  unfold falsyField, rowOf, create, storable, requiredText.
  cbn [errorMessage errorStack errorCode environment component metadata].
  intros F. apply orb_false_iff in F as [Fm Fe].
  apply negb_false_iff in Fm, Fe.
  destruct up; cbn [andb]; [| reflexivity].
  destruct (errorMessage b) as [| | ? | ? | m | ?]; try reflexivity.
  cbn [truthy] in Fm. apply negb_true_iff in Fm. rewrite Fm.
  destruct (environment b) as [| | ? | ? | e | ?]; try reflexivity.
  cbn [truthy] in Fe. apply negb_true_iff in Fe. rewrite Fe.
  destruct (optionalString (errorStack b)); [| reflexivity].
  destruct (optionalString (errorCode b)); [| reflexivity].
  destruct (optionalString (component b)); reflexivity.
Qed.

Lemma rowOf_fields (b : Body) (t : Table) (row : DeploymentError) :
  rowOf b t = Some row ->
  id row = nextId t /\ rowResolved row = false
  /\ errorMessage b = VStr (rowMessage row)
  /\ environment b = VStr (rowEnvironment row)
  /\ rowMetadata row = (if truthy (metadata b) then metadata b else VObject "{}").
Proof.
  unfold rowOf, create.
  cbn [errorMessage errorStack errorCode environment component metadata].
  destruct (errorMessage b) as [| | ? | ? | m | ?]; try discriminate.
  destruct (environment b) as [| | ? | ? | e | ?]; try discriminate.
  destruct (optionalString (errorStack b)); [| discriminate].
  destruct (optionalString (errorCode b)); [| discriminate].
  destruct (optionalString (component b)); [| discriminate].
  intros [= <-]. repeat split.
Qed.

Lemma rowOf_storable (b : Body) (t : Table) :
  storable b = true -> exists row, rowOf b t = Some row.
Proof.
  unfold rowOf, create, storable, requiredText.
  cbn [errorMessage errorStack errorCode environment component metadata].
  destruct (errorMessage b) as [| | ? | ? | m | ?]; try discriminate.
  destruct (environment b) as [| | ? | ? | e | ?];
    try (destruct (String.eqb m ""); discriminate).
  destruct (String.eqb m ""); [discriminate|].
  destruct (String.eqb e ""); [discriminate|].
  destruct (optionalString (errorStack b)); [| discriminate].
  destruct (optionalString (errorCode b)); [| discriminate].
  destruct (optionalString (component b)); [| discriminate].
  eauto.
Qed.

Lemma handler_answered (up : bool) (req : Request) (t : Table) :
  Answered up req t (handler up req t).
Proof.
  unfold handler, attempt.
  destruct (String.eqb_spec (method req) "POST") as [P | P];
    destruct (String.eqb_spec (method req) "GET") as [G | G]; cbn [negb andb].
  - rewrite P in G. discriminate.
  - destruct (body req) as [b|] eqn:B; [| now apply NoBody].
    change (negb (truthy (errorMessage b)) || negb (truthy (environment b)))
      with (falsyField b).
    destruct (falsyField b) eqn:F; [eapply FieldMissing; eassumption|].
    rewrite (create_storable up b t F).
    destruct (up && storable b) eqn:US; [| eapply NotStored; eassumption].
    apply andb_true_iff in US as [-> S].
    destruct (rowOf_storable b t S) as [row R]. rewrite R.
    eapply Stored; (eassumption || reflexivity).
  - destruct up; [now apply Listed | now apply ListFailed].
  - now apply MethodRefused.
Qed.

Ltac refute_case SF :=
  repeat match goal with
         | H : _ /\ _ |- _ => destruct H
         | H : ex _ |- _ => destruct H
         end;
  repeat match goal with
         | B : body ?r = Some ?x, B' : body ?r = Some ?y |- _ =>
             first [ constr_eq x y; fail 1
                   | assert (y = x) by congruence; subst y ]
         end;
  try match goal with S : storable _ = true |- _ => pose proof (SF _ S) end;
  subst;
  try match goal with
      | S : storable ?b = true, US : _ && storable ?b = false |- _ =>
          rewrite S in US; cbn in US
      end;
  congruence.

(** X11: the status the handler answers with tells the case exactly.  405:
    the method is neither GET nor POST.  200: GET and the database answers.
    400: POST with a body whose [errorMessage] or [environment] is falsy.  201:
    POST, the database answers, both fields are texts that are not empty and
    [errorStack], [errorCode], [component] are texts, [null] or absent.  Every
    other request is answered 500: a GET or an acceptable POST while the
    database is down, a POST without a body, and a POST whose required field
    is a truthy value that is not a text or whose optional field is not a
    text.  Only the 201 answer changes the table: one row is appended, with
    the next id and [resolved] false. *)
Theorem handler_status_cases (up : bool) (req : Request) (t : Table) :
  (status (fst (handler up req t)) = 405
   <-> method req <> "GET" /\ method req <> "POST")
  /\ (status (fst (handler up req t)) = 200 <-> method req = "GET" /\ up = true)
  /\ (status (fst (handler up req t)) = 400
      <-> method req = "POST" /\ exists b, body req = Some b /\ falsyField b = true)
  /\ (status (fst (handler up req t)) = 201
      <-> method req = "POST" /\ up = true
          /\ exists b, body req = Some b /\ storable b = true)
  /\ In (status (fst (handler up req t))) [200; 201; 400; 405; 500]
  /\ (snd (handler up req t) = t
      \/ exists row,
           fst (handler up req t) = respond 201 (Logged row)
           /\ snd (handler up req t)
              = {| rows := rows t ++ [row]; nextId := nextId t + 1 |}
           /\ id row = nextId t /\ rowResolved row = false).
Proof.
  pose proof (handler_answered up req t) as A.
  pose proof storable_not_falsy as SF.
  destruct A as [G P | G U | G U | P B | b P B F | b P B F US | b row P B U S R];
    cbn [fst snd status respond].
  all: try (destruct (rowOf_fields b t row R) as (Hid & Hres & _)).
  all: split_and!.
  all: try (left; reflexivity).
  all: try (right; exists row; split_and!; (reflexivity || assumption)).
  all: try (cbn; tauto).
  all: split; [intros ?; first [discriminate | eauto 8]
              | intros ?; first [reflexivity | exfalso; refute_case SF]].
Qed.

Lemma created_snoc (answers : list Response) (r : Response) :
  created (answers ++ [r])
  = (created answers + if (status r =? 201)%Z then 1 else 0)%nat.
Proof.
  unfold created. rewrite List.filter_app, length_app. cbn [List.filter].
  now destruct (status r =? 201)%Z.
Qed.

Lemma logSound_serveOne (state : list Response * Table) (c : Call) :
  logSound state -> logSound (serveOne state c).
Proof.
  destruct state as [answers t]. intros (Hlen & Hids & Hnext & Hres).
  unfold serveOne, logSound. cbn [fst snd] in *.
  rewrite created_snoc.
  destruct (handler_answered (dbUp c) (request c) t)
    as [G P | G U | G U | P B | b P B F | b P B F US | b row P B U S R];
    cbn [fst snd status respond Z.eqb Pos.eqb];
    rewrite ?Nat.add_0_r; try (split_and!; assumption).
  destruct (rowOf_fields b t row R) as (Hid & Hr & _).
  cbn [rows nextId]. split_and!.
  - rewrite length_app. cbn [length]. lia.
  - rewrite List.map_app, Hids, Nat.add_1_r, seq_S, List.map_app.
    cbn [List.map]. rewrite Hid, Hnext. do 2 f_equal. lia.
  - lia.
  - apply Forall_app. split; [exact Hres | constructor; [exact Hr | constructor]].
Qed.

Lemma serve_snoc (calls : list Call) (c : Call) :
  serve (calls ++ [c]) = serveOne (serve calls) c.
Proof. unfold serve. now rewrite fold_left_app. Qed.

Lemma serve_length (calls : list Call) : length (fst (serve calls)) = length calls.
Proof.
  induction calls as [| c calls IH] using rev_ind; [reflexivity|].
  rewrite serve_snoc. unfold serveOne. cbn [fst].
  rewrite !length_app, IH. reflexivity.
Qed.

Lemma logSound_serve (calls : list Call) : logSound (serve calls).
Proof.
  induction calls as [| c calls IH] using rev_ind.
  - repeat split. constructor.
  - rewrite serve_snoc. now apply logSound_serveOne.
Qed.

Lemma count_unresolved (r : option string) (t : Table) :
  Forall (fun row => rowResolved row = false) (rows t) ->
  count r t = if bool_decide (r = Some "true") then 0%nat else length (rows t).
Proof.
  intros H. unfold count. destruct r as [r|]; [| reflexivity].
  destruct (String.eqb_spec r "true") as [-> | N].
  - rewrite bool_decide_eq_true_2 by reflexivity.
    induction H as [| row l Hrow _ IH]; [reflexivity|].
    cbn [List.filter]. rewrite Hrow. exact IH.
  - rewrite bool_decide_eq_false_2 by congruence.
    induction H as [| row l Hrow _ IH]; [reflexivity|].
    cbn [List.filter]. rewrite Hrow. cbn [Bool.eqb length]. now rewrite IH.
Qed.

(** X12: over any run of requests on an empty table, the table holds one
    row per request answered 201, with ids 1, 2, 3, ... in order of arrival
    and all unresolved (the handler never marks an error resolved).  So the
    total a GET reports is the number of errors logged, except with
    [?resolved=true], where it is 0; any other value of [resolved]
    ("false", "TRUE", "1", the empty text) reports them all. *)
Theorem log_counts_created (calls : list Call) :
  length (fst (serve calls)) = length calls
  /\ length (rows (snd (serve calls))) = created (fst (serve calls))
  /\ List.map id (rows (snd (serve calls)))
     = List.map Z.of_nat (seq 1 (created (fst (serve calls))))
  /\ Forall (fun row => rowResolved row = false) (rows (snd (serve calls)))
  /\ count None (snd (serve calls)) = created (fst (serve calls))
  /\ count (Some "true") (snd (serve calls)) = 0%nat
  /\ (forall r, r <> "true" ->
        count (Some r) (snd (serve calls)) = created (fst (serve calls))).
Proof.
  destruct (logSound_serve calls) as (Hlen & Hids & _ & Hres).
  split; [apply serve_length|].
  split; [exact Hlen|].
  split; [exact Hids|].
  split; [exact Hres|].
  split; [unfold count; exact Hlen|].
  split; [now rewrite (count_unresolved _ _ Hres)|].
  intros r N. rewrite (count_unresolved _ _ Hres), bool_decide_eq_false_2 by congruence.
  exact Hlen.
Qed.

End DeploymentLogProperties.

(* ===================================================================== *)
(** * Properties of the server around [connectDB] *)
(* ===================================================================== *)

Section ServerProperties.
Import Database Server.


Lemma connectDB_all_fail (MAX_RETRIES : option Z) (succeeds : nat -> bool)
    (n : nat) (st : State) :
  isConnected st = false -> (forall i, succeeds (n + i)%nat = false) ->
  returned (connectDB MAX_RETRIES succeeds n st) = false
  /\ length (retryLog (connectDB MAX_RETRIES succeeds n st)) = budget MAX_RETRIES st
  /\ final (connectDB MAX_RETRIES succeeds n st)
     = failed (connectionRetries st + Z.of_nat (budget MAX_RETRIES st)).
Proof.
  intros C F.
  destruct (connectDB_spec MAX_RETRIES succeeds n st) as (Hlen & _ & _ & Ht & Hf).
  assert (R : returned (connectDB MAX_RETRIES succeeds n st) = false).
  { destruct (returned (connectDB MAX_RETRIES succeeds n st)); [| reflexivity].
    destruct (Ht eq_refl) as [(C' & _) | (_ & _ & S & _)]; congruence. }
  destruct (Hf R) as (_ & _ & Hfin & Hb).
  assert (L : length (retryLog (connectDB MAX_RETRIES succeeds n st))
              = budget MAX_RETRIES st).
  { rewrite Hfin in Hb. cbn [failed connectionRetries] in Hb.
    unfold budget in *. destruct MAX_RETRIES as [m|]; simpl in *; lia. }
  split; [exact R|]. split; [exact L|]. now rewrite Hfin, L.
Qed.








Lemma retries_while_down (MAX_RETRIES : option Z) (events : list Event) (st : State) :
  isConnected st = false -> Forall neverSucceeds events ->
  (totalRetries MAX_RETRIES st events <= budget MAX_RETRIES st)%nat
  /\ (budget MAX_RETRIES st = 0%nat -> totalRetries MAX_RETRIES st events = 0%nat).
Proof.
  intros C F. revert st C.
  induction F as [| e events He _ IH]; intros st C; cbn [totalRetries]; [split; lia|].
  assert (E : exists succeeds,
             (forall n, succeeds n = false)
             /\ retriesOf MAX_RETRIES st e
                = length (retryLog (connectDB MAX_RETRIES succeeds 0 st))
             /\ step MAX_RETRIES st e = final (connectDB MAX_RETRIES succeeds 0 st)).
  { destruct e as [succeeds | queryOk succeeds | succeeds]; exists succeeds;
      cbn [neverSucceeds retriesOf step] in *; (split; [exact He|]); split; try reflexivity.
    - unfold healthCheck. now rewrite C.
    - unfold apiMiddleware. now rewrite C. }
  destruct E as (succeeds & Hs & -> & ->).
  destruct (connectDB_all_fail MAX_RETRIES succeeds 0 st C (fun i => Hs _))
    as (_ & -> & ->).
  assert (B : budget MAX_RETRIES
                (failed (connectionRetries st + Z.of_nat (budget MAX_RETRIES st))) = 0%nat).
  { unfold budget. destruct MAX_RETRIES as [m|]; cbn; lia. }
  destruct (IH (failed (connectionRetries st + Z.of_nat (budget MAX_RETRIES st))) eq_refl)
    as (Hle & Hz).
  rewrite (Hz B). split; lia.
Qed.

(** X16: the retry budget is spent once per outage, not once per request:
    while no attempt succeeds, all starts, health checks and API requests
    together make at most [MAX_RETRIES] retries, and once the counter has
    reached the bound every further call makes a single attempt. *)
Theorem retry_budget_spent_once (MAX_RETRIES : option Z) (events : list Event) :
  Forall neverSucceeds events ->
  (totalRetries MAX_RETRIES initial events <= Z.to_nat (default 0%Z MAX_RETRIES))%nat
  /\ (forall e rest, events = e :: rest ->
        totalRetries MAX_RETRIES (step MAX_RETRIES initial e) rest = 0%nat).
Proof.
  intros F. split.
  - destruct (retries_while_down MAX_RETRIES events initial eq_refl F) as (H & _).
    unfold budget in H. destruct MAX_RETRIES as [m|]; cbn in *; lia.
  - intros e rest ->. apply Forall_cons_iff in F as [He Hrest].
    assert (E : exists succeeds,
               (forall n, succeeds n = false)
               /\ step MAX_RETRIES initial e
                  = final (connectDB MAX_RETRIES succeeds 0 initial)).
    { destruct e as [succeeds | queryOk succeeds | succeeds]; exists succeeds;
        cbn [neverSucceeds step] in *; (split; [exact He | reflexivity]). }
    destruct E as (succeeds & Hs & ->).
    destruct (connectDB_all_fail MAX_RETRIES succeeds 0 initial eq_refl (fun i => Hs _))
      as (_ & _ & ->).
    apply retries_while_down; [reflexivity | exact Hrest|].
    unfold budget. destruct MAX_RETRIES as [m|]; cbn; lia.
Qed.

Lemma retry_budget_spent_once_witness :
  Forall neverSucceeds [Start neverUp; Api neverUp; Health true neverUp; Api neverUp]
  /\ totalRetries defaultMax initial
       [Start neverUp; Api neverUp; Health true neverUp; Api neverUp] = 5%nat
  /\ (totalRetries defaultMax initial
        [Start neverUp; Api neverUp; Health true neverUp; Api neverUp] <= 5)%nat.
Proof.
  assert (F : Forall neverSucceeds
                [Start neverUp; Api neverUp; Health true neverUp; Api neverUp]).
  { repeat constructor. }
  split; [exact F|]. split; [reflexivity|].
  exact (proj1 (retry_budget_spent_once defaultMax _ F)).
Defined.

(** X17: the middleware in front of [/api] lets a request through exactly
    when the connection is up once it has run, and answers 503 exactly when
    it is down; the health check answers 200 exactly when it reports
    "connected", and then the connection is up. *)
Theorem gate_follows_connection (MAX_RETRIES : option Z) (succeeds : nat -> bool)
    (queryOk : bool) (st : State) :
  (fst (apiMiddleware MAX_RETRIES succeeds st) = Forwarded
   <-> isConnected (snd (apiMiddleware MAX_RETRIES succeeds st)) = true)
  /\ (fst (apiMiddleware MAX_RETRIES succeeds st) = Unavailable
      <-> isConnected (snd (apiMiddleware MAX_RETRIES succeeds st)) = false)
  /\ (fst (fst (healthCheck MAX_RETRIES queryOk succeeds st)) = 200
      <-> snd (fst (healthCheck MAX_RETRIES queryOk succeeds st)) = Connected)
  /\ (snd (fst (healthCheck MAX_RETRIES queryOk succeeds st)) = Connected ->
      isConnected (snd (healthCheck MAX_RETRIES queryOk succeeds st)) = true).
Proof.
  assert (R : isConnected st = false ->
              isConnected (final (connectDB MAX_RETRIES succeeds 0 st))
              = returned (connectDB MAX_RETRIES succeeds 0 st)).
  { intros C.
    destruct (connectDB_spec MAX_RETRIES succeeds 0 st) as (_ & _ & _ & Ht & Hf).
    destruct (returned (connectDB MAX_RETRIES succeeds 0 st)).
    - destruct (Ht eq_refl) as [(C' & _) | (_ & -> & _)]; [congruence | reflexivity].
    - destruct (Hf eq_refl) as (_ & _ & -> & _). reflexivity. }
  unfold apiMiddleware, healthCheck.
  destruct (isConnected st) eqn:C.
  - destruct queryOk; cbn [fst snd statusCode]; rewrite ?C;
      repeat split; intros; congruence.
  - specialize (R eq_refl). cbn [fst snd]. rewrite R.
    destruct (returned (connectDB MAX_RETRIES succeeds 0 st));
      cbn [statusCode]; repeat split; intros; congruence.
Qed.

End ServerProperties.
